(** * A shallow embedding of [app.py], the health-assistant chat backend

    The development follows the layout of the Python module: string
    primitives of the Python runtime, the similarity ratio of [difflib],
    the knowledge index built at load time, the session history, the
    matching cascade ([check_emergency], [find_condition_simple],
    [symptom_checker]), the advice helpers ([get_medicine_text],
    [get_precaution_text]), small talk, and the [/chat] route.

    Modelling conventions.
    - A Python [str] is a Rocq [string]; one [ascii] is one character.
      [lower] is [str.lower] on ASCII letters and the identity on every
      other character, [strip] removes the ASCII white space that
      [str.strip] removes: the model is exact on ASCII text. Literals of
      the source that are not ASCII stand as their UTF-8 bytes.
    - A Python [float] is the rational number whose rounding it is ([Q]):
      a score is the exact quotient of the two integers the source
      divides, the literal [0.45] is [45/100], [1.0] is [1] and [0.0] is
      [0]. Division in Python rounds the exact quotient to the nearest
      double, which never reverses the order of two quotients; the
      example [fuzzy_boundary_on_doubles] below runs the threshold test
      of the fuzzy tier on doubles.
    - A Python [dict] loaded from JSON is the list of its items in the
      order of the file; a Python [set] of strings is the list of its
      elements in the order the interpreter enumerates them, which the
      source does not control (see [set_iter] below).
    - An exception that escapes to the [except] clause of [chat] is the
      [Raise] result of a small error monad.
    - The body of a request is the value [request.get_json()] returns
      ([Json]), or nothing when that call raises. [read_payload] is the
      reading of the message and of the symptom-mode flag, which can
      raise; [chat] is the route once they are read, and [chat_request]
      the route from the body. *)

From Stdlib Require Import String Ascii List Bool Arith Lia Permutation Sorted.
From Stdlib Require Import ZArith QArith Qround DecimalString.
From Stdlib Require Import Floats.
Import ListNotations.

Open Scope string_scope.
Open Scope list_scope.
Open Scope nat_scope.

(** ** Python string primitives *)

(** [str.lower] on one character. *)
Definition lower_ascii (c : ascii) : ascii :=
  let n := nat_of_ascii c in
  if (65 <=? n) && (n <=? 90) then ascii_of_nat (n + 32) else c.

(** [str.lower]. *)
Fixpoint lower (s : string) : string :=
  match s with
  | EmptyString => EmptyString
  | String c s' => String (lower_ascii c) (lower s')
  end.

(** The characters [str.strip] removes: tab, line feed, vertical tab, form
    feed, carriage return, the four separators 0x1c-0x1f and the space. *)
Definition is_space (c : ascii) : bool :=
  let n := nat_of_ascii c in
  ((9 <=? n) && (n <=? 13)) || ((28 <=? n) && (n <=? 32)).

Fixpoint lstrip (s : string) : string :=
  match s with
  | EmptyString => EmptyString
  | String c s' => if is_space c then lstrip s' else s
  end.

Fixpoint rstrip (s : string) : string :=
  match s with
  | EmptyString => EmptyString
  | String c s' =>
      match rstrip s' with
      | EmptyString => if is_space c then EmptyString else String c EmptyString
      | r => String c r
      end
  end.

(** [str.strip]. *)
Definition strip (s : string) : string := rstrip (lstrip s).

(** [s.startswith(p)]. *)
Fixpoint startswith (p s : string) : bool :=
  match p, s with
  | EmptyString, _ => true
  | String _ _, EmptyString => false
  | String a p', String b s' => Ascii.eqb a b && startswith p' s'
  end.

(** [sub in s] for two strings: [sub] occurs in [s] as a substring. *)
Fixpoint str_in (sub s : string) : bool :=
  startswith sub s ||
  match s with
  | EmptyString => false
  | String _ s' => str_in sub s'
  end.

(** Truth value of a string: the empty string is false. *)
Definition truthy (s : string) : bool :=
  match s with EmptyString => false | String _ _ => true end.

(** Truth value of an optional string ([None] and [""] are false). *)
Definition truthy_opt (o : option string) : bool :=
  match o with Some s => truthy s | None => false end.

(** [sep.join(parts)]. *)
Definition join (sep : string) (parts : list string) : string :=
  String.concat sep parts.

(** ** [difflib.SequenceMatcher(None, a, b).ratio()]

    The matcher of the Python standard library as [find_condition_simple]
    calls it: no junk predicate ([isjunk] is [None], so the junk set of
    [b] is empty) and [autojunk] left at [True]. *)
Module difflib.

(** A match [(i, j, k)]: [a[i:i+k] == b[j:j+k]]. *)
Definition Match : Type := (nat * nat * nat)%type.

Definition size (m : Match) : nat := snd m.

Section Matcher.
Variables a b : list ascii.

Definition char_at (s : list ascii) (i : nat) : ascii := nth i s Ascii.zero.

(** [__chain_b]: with [autojunk] and [len(b) >= 200], a character found
    more than [len(b) // 100 + 1] times in [b] is popular and is dropped
    from the index [b2j]. *)
Definition popular (c : ascii) : bool :=
  let n := length b in
  (200 <=? n) && (n / 100 + 1 <? count_occ ascii_dec b c).

(** One pass of the inner loop of [find_longest_match] for [a[i]]: [j]
    runs over the positions of [b] in increasing order, [bs] is [b[j:]],
    [prev] is [j2len.get(j-1, 0)] and [old] holds [j2len] from position
    [j] on (an absent entry reads as 0). Returns [newj2len] and the best
    match so far. *)
Fixpoint scan_row (ai : ascii) (i blo bhi j : nat) (bs : list ascii)
    (prev : nat) (old : list nat) (best : Match) : list nat * Match :=
  match bs with
  | [] => ([], best)
  | bj :: bs' =>
      if Ascii.eqb ai bj && negb (popular bj) && (blo <=? j) && (j <? bhi)
      then
        let k := prev + 1 in
        let best' :=
          if size best <? k then (i + 1 - k, j + 1 - k, k) else best in
        let (row, r) :=
          scan_row ai i blo bhi (S j) bs' (hd 0 old) (tl old) best' in
        (k :: row, r)
      else
        let (row, r) :=
          scan_row ai i blo bhi (S j) bs' (hd 0 old) (tl old) best in
        (0 :: row, r)
  end.

(** The outer loop [for i in range(alo, ahi)], [n] iterations from [i]. *)
Fixpoint scan_rows (blo bhi i n : nat) (j2len : list nat) (best : Match)
    : Match :=
  match n with
  | 0 => best
  | S n' =>
      let (newj2len, best') :=
        scan_row (char_at a i) i blo bhi 0 b 0 j2len best in
      scan_rows blo bhi (S i) n' newj2len best'
  end.

(** [while besti > alo and bestj > blo and a[besti-1] == b[bestj-1]]. *)
Fixpoint extend_left (alo blo besti bestj bestsize : nat) : Match :=
  match besti, bestj with
  | S i', S j' =>
      if (alo <? besti) && (blo <? bestj)
         && Ascii.eqb (char_at a i') (char_at b j')
      then extend_left alo blo i' j' (S bestsize)
      else (besti, bestj, bestsize)
  | _, _ => (besti, bestj, bestsize)
  end.

(** [while besti+bestsize < ahi and bestj+bestsize < bhi and
    a[besti+bestsize] == b[bestj+bestsize]]; [n] is
    [ahi - (besti + bestsize)], the number of rounds left before the
    first test fails. *)
Fixpoint extend_right (ahi bhi besti bestj bestsize n : nat) : nat :=
  match n with
  | 0 => bestsize
  | S n' =>
      if (besti + bestsize <? ahi) && (bestj + bestsize <? bhi)
         && Ascii.eqb (char_at a (besti + bestsize))
                      (char_at b (bestj + bestsize))
      then extend_right ahi bhi besti bestj (S bestsize) n'
      else bestsize
  end.

(** [find_longest_match(alo, ahi, blo, bhi)]. The two closing loops of
    the Python function extend the match over junk; the junk set is
    empty here and they never run. *)
Definition find_longest_match (alo ahi blo bhi : nat) : Match :=
  let '(besti, bestj, bestsize) :=
    scan_rows blo bhi alo (ahi - alo) [] (alo, blo, 0) in
  let '(besti, bestj, bestsize) :=
    extend_left alo blo besti bestj bestsize in
  let bestsize :=
    extend_right ahi bhi besti bestj bestsize (ahi - (besti + bestsize)) in
  (besti, bestj, bestsize).

(** The [while queue] loop of [get_matching_blocks]; the head of [queue]
    is the end of the Python list ([pop] and [append] work there). *)
Fixpoint blocks_loop (fuel : nat) (queue : list (nat * nat * nat * nat))
    (matching_blocks : list Match) : option (list Match) :=
  match queue with
  | [] => Some matching_blocks
  | (alo, ahi, blo, bhi) :: queue' =>
      match fuel with
      | 0 => None
      | S fuel' =>
          let '(i, j, k) := find_longest_match alo ahi blo bhi in
          if k =? 0 then blocks_loop fuel' queue' matching_blocks
          else
            let q1 :=
              if (alo <? i) && (blo <? j)
              then (alo, i, blo, j) :: queue' else queue' in
            let q2 :=
              if (i + k <? ahi) && (j + k <? bhi)
              then (i + k, ahi, j + k, bhi) :: q1 else q1 in
            blocks_loop fuel' q2 (matching_blocks ++ [(i, j, k)])
      end
  end.
End Matcher.

(** Order of Python tuples of three integers. *)
Definition match_lt (x y : Match) : bool :=
  let '(i1, j1, k1) := x in
  let '(i2, j2, k2) := y in
  (i1 <? i2) || ((i1 =? i2) && ((j1 <? j2) || ((j1 =? j2) && (k1 <? k2)))).

Fixpoint insert_match (x : Match) (l : list Match) : list Match :=
  match l with
  | [] => [x]
  | y :: l' => if match_lt x y then x :: l else y :: insert_match x l'
  end.

(** [matching_blocks.sort()]. *)
Definition sort_matches (l : list Match) : list Match :=
  fold_right insert_match [] l.

(** The loop that merges adjacent blocks; [cur] is [(i1, j1, k1)]. *)
Fixpoint collapse (cur : Match) (blocks non_adjacent : list Match)
    : list Match :=
  let '(i1, j1, k1) := cur in
  match blocks with
  | [] => if k1 =? 0 then non_adjacent else non_adjacent ++ [cur]
  | (i2, j2, k2) :: rest =>
      if (i1 + k1 =? i2) && (j1 + k1 =? j2)
      then collapse (i1, j1, k1 + k2) rest non_adjacent
      else collapse (i2, j2, k2) rest
             (if k1 =? 0 then non_adjacent else non_adjacent ++ [cur])
  end.

(** [get_matching_blocks()]; [None] would mean the loop was cut short,
    which [get_matching_blocks_total] below excludes. *)
Definition get_matching_blocks (a b : list ascii) : option (list Match) :=
  let la := length a in
  let lb := length b in
  match blocks_loop a b (2 * la + 1) [(0, la, 0, lb)] [] with
  | Some matching_blocks =>
      Some (collapse (0, 0, 0) (sort_matches matching_blocks) []
              ++ [(la, lb, 0)])
  | None => None
  end.

(** [_calculate_ratio(matches, length)]. *)
Definition calculate_ratio (matches length : nat) : Q :=
  if length =? 0 then 1%Q
  else (Z.of_nat (2 * matches) # Pos.of_nat length)%Q.

(** [_calculate_ratio] as Python evaluates it, on doubles:
    [2.0 * matches / length]. *)
Definition calculate_ratio_double (matches length : nat) : float :=
  if length =? 0 then 1%float
  else (2 * PrimFloat.of_uint63 (Uint63.of_Z (Z.of_nat matches))
        / PrimFloat.of_uint63 (Uint63.of_Z (Z.of_nat length)))%float.

(** [SequenceMatcher(None, a, b).ratio()]. *)
Definition ratio (a b : string) : Q :=
  let la := list_ascii_of_string a in
  let lb := list_ascii_of_string b in
  match get_matching_blocks la lb with
  | Some blocks =>
      calculate_ratio (list_sum (map size blocks)) (length la + length lb)
  | None => 0%Q
  end.

End difflib.

(** ** Exceptions and dictionaries *)

Inductive exn : Type :=
| KeyError (key : string).

Inductive result (A : Type) : Type :=
| Ok (a : A)
| Raise (e : exn).

Arguments Ok {A} a.
Arguments Raise {A} e.

Definition bind {A B : Type} (r : result A) (f : A -> result B) : result B :=
  match r with
  | Ok a => f a
  | Raise e => Raise e
  end.

Notation "x <- r ;; k" := (bind r (fun x => k))
  (at level 61, r at next level, right associativity).

Fixpoint mapM {A B : Type} (f : A -> result B) (l : list A)
    : result (list B) :=
  match l with
  | [] => Ok []
  | x :: l' => y <- f x ;; ys <- mapM f l' ;; Ok (y :: ys)
  end.

(** [d.get(key)] on a dictionary kept as the list of its items. *)
Definition dict_get {V : Type} (key : string) (d : list (string * V))
    : option V :=
  match find (fun kv => String.eqb (fst kv) key) d with
  | Some kv => Some (snd kv)
  | None => None
  end.

(** [key in d]. *)
Definition dict_in {V : Type} (key : string) (d : list (string * V)) : bool :=
  existsb (fun kv => String.eqb (fst kv) key) d.

(** [d.keys()]. *)
Definition dict_keys {V : Type} (d : list (string * V)) : list string :=
  map fst d.

(** [o.get(field, default)] and [x or default] on an optional value. *)
Definition get_or {A : Type} (o : option A) (default : A) : A :=
  match o with
  | Some x => x
  | None => default
  end.

(** [x or default] for an optional string [x]: the default replaces
    [None] and the empty string. *)
Definition str_or (x : option string) (default : string) : string :=
  if truthy_opt x then get_or x "" else default.

(** The line feed of the Python literals. *)
Definition nl : string := String (ascii_of_nat 10) EmptyString.

(** ** Data model *)

(** An item of [medical_knowledge.json]; a field the file leaves out is
    [None]. *)
Record ConditionEntry : Type := {
  title : option string;
  symptoms : option (list string);
  description : option string;
  when_to_seek_care : option string
}.

(** An item of [medicines.json]. *)
Record MedicineEntry : Type := {
  name : option string;
  use : option string;
  warning : option string
}.

(** A value of [INDEX]. *)
Record IndexEntry : Type := {
  idx_title : string;
  keywords : list string
}.

(** An element of [session["history"]]. *)
Record DialogTurn : Type := {
  user : string;
  bot : string;
  condition : option string
}.

(** The Flask session: [None] when it has no ["history"] key yet. *)
Definition Session : Type := option (list DialogTurn).

(** What [chat] works on once it has read the body of the request: the
    text of ["message"] ([None] when the body has none) and the truth
    value of ["symptom_mode"]. [read_payload] below builds it from the
    decoded body, where that can be done. *)
Record Payload : Type := {
  message : option string;
  symptom_mode : bool
}.

(** A value as [request.get_json()] returns it: [None], a [bool], an
    [int], a [float], a [str], a [list], or a [dict] kept as the list of
    its items (a dictionary holds a key once). *)
#[local] Set Warnings "-register-all".
Inductive Json : Type :=
| JNull
| JBool (b : bool)
| JInt (z : Z)
| JFloat (f : float)
| JStr (s : string)
| JList (items : list Json)
| JDict (fields : list (string * Json)).

(** Truth value of a decoded value: [None], [False], zero, the empty
    string, the empty list and the empty dictionary are false. *)
Definition json_truthy (j : Json) : bool :=
  match j with
  | JNull => false
  | JBool b => b
  | JInt z => negb (z =? 0)%Z
  | JFloat f => negb (PrimFloat.eqb f PrimFloat.zero)
  | JStr s => truthy s
  | JList items => match items with [] => false | _ :: _ => true end
  | JDict fields => match fields with [] => false | _ :: _ => true end
  end.

Record Candidate : Type := {
  cand_key : string;
  cand_title : string;
  cand_score : Q
}.

(** The JSON answer with its HTTP status. The ["explanation"] entry of the
    symptom-mode answer is always [None] and is left out. *)
Record Response : Type := {
  reply : string;
  disclaimer : string;
  history : option (list DialogTurn);
  candidates : option (list Candidate);
  status : nat
}.

(** The [return] statement of [chat] that produced the answer (ghost data,
    not part of the answer). *)
Inductive Stage : Type :=
| EmptyInput
| Emergency
| Smalltalk
| PrecautionNamed
| PrecautionPrevious
| PrecautionGeneric
| SymptomMode
| ConditionDetail
| Fallback
| ServerError.

(** ** Constants of the module *)

Definition EMERGENCY_SIGNS : list string :=
  [ "chest pain"; "cannot breathe"; "difficulty breathing"; "severe bleeding";
    "unconscious"; "seizure"; "blue lips"; "stroke"; "sudden weakness";
    "fainting" ].

Definition DISCLAIMER : string :=
  ("⚠️ I provide general health information only — not medical advice. "
   ++ "If you think it's an emergency, contact your local emergency services immediately.")%string.

Definition PRECAUTION_MAP : list (string * list string) :=
  [ ("fever",
     [ "Rest and avoid strenuous activity.";
       "Keep hydrated — drink plenty of fluids (water, ORS).";
       "Monitor temperature regularly.";
       "Avoid giving aspirin to children — use paracetamol for fever in children as per label and medical advice.";
       "Avoid self-prescribing antibiotics unless a doctor recommends them." ]);
    ("headache",
     [ "Rest in a quiet, dark room if light/noise worsens the headache.";
       "Stay hydrated; avoid long screen time and eye strain.";
       "Try relaxation/breathing exercises for tension headaches." ]);
    ("common_cold",
     [ "Rest and increase fluid intake.";
       "Use saline nasal spray and humidifier to ease congestion.";
       "Avoid close contact with others while symptomatic." ]);
    ("flu",
     [ "Rest, hydrate, and avoid contact with vulnerable people (elderly, infants).";
       "Consider staying home until 24 hours after fever subsides without medicines." ]);
    ("sore_throat",
     [ "Gargle warm salt water and drink warm fluids.";
       "Avoid irritants like smoke and dry air." ]);
    ("minor_burn",
     [ "Cool with running water (10–20 minutes).";
       "Cover with sterile non-stick dressing; do not apply butter or toothpaste." ]);
    ("sprained_ankle",
     [ "Follow RICE: Rest, Ice, Compression, Elevation.";
       "Avoid putting weight on it until comfortable." ]) ].

Definition GENERIC_PRECAUTIONS : list string :=
  [ "If symptoms worsen or you have severe signs (chest pain, difficulty breathing, fainting, severe bleeding), seek emergency care immediately.";
    "Avoid taking antibiotics or prescription medications without a doctor's advice.";
    "If you have allergies, chronic illnesses, or are pregnant, consult a healthcare professional before taking medicines.";
    "Keep track of symptom duration and severity; seek professional care if symptoms persist or worsen." ].

(** The two tips [get_precaution_text] starts with when it knows no
    condition. *)
Definition NO_CONDITION_TIPS : list string :=
  [ "Provide clear symptom list (e.g., 'fever, cough, sore throat') so I can suggest likely conditions.";
    "In the meantime: stay hydrated, rest, avoid self-prescribed antibiotics, monitor red-flag signs." ].

Definition SMALLTALK_PATTERNS : list (string * list string) :=
  [ ("\bhi\b|\bhello\b|\bhey\b",
     ["Hello!"; "Hi there!"; "Hey — how can I help?"]);
    ("\bhow are you\b|\bhow's it going\b",
     ["I'm a program, doing fine — ready to help!"; "All good here — how are you?"]);
    ("\bwhat'?s up\b|\bwhats up\b",
     ["Not much — ready to chat or help with symptoms."]);
    ("\bthank(s| you)\b", ["You're welcome!"; "Happy to help!"]);
    ("\bbye\b|\bgoodbye\b|\bsee you\b", ["Bye! Take care."; "Goodbye — stay safe."]);
    ("\bwhat can you do\b|\bwhat are you\b",
     ["I can provide general info about symptoms and suggest non-prescription options. I'm not a doctor."]);
    ("\btoday i want to discuss\b",
     ["Sure — tell me what topic you'd like to discuss. I can chat or help with health topics."]) ].

Definition QA_MAP : list (string * string) :=
  [ ("what two people communicate with each other",
     ("Two people communicate information, ideas, feelings and intentions to each other. "
      ++ "This can be through words, tone of voice, body language, or written messages. Good communication involves listening, clarity, and feedback.")%string);
    ("what is communication",
     "Communication is the exchange of information between individuals or groups using spoken, written, visual, or nonverbal methods.");
    ("what is a symptom",
     "A symptom is something a person feels or notices that may indicate a condition or illness (e.g., pain, fever, cough).");
    ("how to start a conversation",
     "Start with a friendly greeting, ask an open question (e.g., 'How are you?'), comment on something you both share, and show interest by listening.") ].

(** The key words of the precaution/medicine intent, in the order of the
    loop in [chat]. *)
Definition INTENT_KEYWORDS : list string :=
  [ "precaution"; "precautions"; "precautionary"; "medicine"; "medicines";
    "medication"; "drugs"; "suggest medicine"; "suggest me medicine";
    "what medicine"; "what to take" ].

Definition NO_MEDICINE : string :=
  "No non-prescription options found in the database.".

Definition FALLBACK : string :=
  ("I couldn't identify a clear match. If you can list several symptoms separated by commas "
   ++ "(for example: 'fever, cough, sore throat'), I can run a symptom-check to suggest possible conditions. "
   ++ "Or specify the condition you'd like precautions/medicines for (e.g., 'for headache').")%string.

(** The double nearest to 0.45, the value of the literal [0.45]. *)
Definition THRESHOLD_DOUBLE : float := 0x1.ccccccccccccdp-2%float.

(** ** Sorting by score *)

Definition Qlt_bool (x y : Q) : bool := negb (Qle_bool y x).

(** [scores.sort(key=lambda x: x[1], reverse=True)]: the sort of Python is
    stable, also with [reverse=True], so elements of equal score keep
    their order. *)
Fixpoint insert_desc (x : string * Q) (l : list (string * Q))
    : list (string * Q) :=
  match l with
  | [] => [x]
  | y :: l' =>
      if Qlt_bool (snd x) (snd y) then y :: insert_desc x l' else x :: l
  end.

Definition sort_desc (l : list (string * Q)) : list (string * Q) :=
  fold_right insert_desc [] l.

(** ** What the module reads from outside

    The two JSON files as loaded, and the behaviour of the interpreter and
    of the library calls that the source does not fix. *)
Record Env : Type := {
  (** [medical_knowledge.json] and [medicines.json]. *)
  MED_KB : list (string * ConditionEntry);
  MEDICINES : list (string * list MedicineEntry);
  (** The order in which the interpreter enumerates a [set] of strings
      built from the given elements. It depends on the hash values of the
      strings, which change from one process to the next. *)
  set_iter : list string -> list string;
  (** Library calls no statement below depends on: [re.search(pattern, t)]
      as a truth value, [re.split(pattern, msg)], [round(s, 3)] and the
      text of a float in an f-string. *)
  re_search : string -> string -> bool;
  re_split : string -> string -> list string;
  round3 : Q -> Q;
  float_str : Q -> string
}.

(** ** The application *)

Section App.

Variable E : Env.

(** *** Keyword index *)

Definition index_entry (item : ConditionEntry) : IndexEntry :=
  {| idx_title := get_or (title item) "";
     keywords :=
       set_iter E ([lower (get_or (title item) "")]
                 ++ map lower (get_or (symptoms item) [])) |}.

Definition INDEX : list (string * IndexEntry) :=
  map (fun kv => (fst kv, index_entry (snd kv))) (MED_KB E).

(** *** Session memory *)

Definition get_history (session : Session) : list DialogTurn :=
  get_or session [].

Definition add_to_history (session : Session) (user_text bot_text : string)
    (matched_condition : option string) : Session :=
  Some (get_history session
        ++ [ {| user := user_text; bot := bot_text;
                condition := matched_condition |} ]).

(** The [for key in MED_KB.keys(): if key in bot_text] scan. *)
Definition key_in_text (bot_text : string) : option string :=
  find (fun key => str_in key bot_text) (dict_keys (MED_KB E)).

(** The loop over [reversed(hist)]. *)
Fixpoint scan_history (reversed_hist : list DialogTurn) : option string :=
  match reversed_hist with
  | [] => None
  | entry :: older =>
      if truthy_opt (condition entry) then condition entry
      else
        match key_in_text (lower (bot entry)) with
        | Some key => Some key
        | None => scan_history older
        end
  end.

Definition last_matched_condition_from_history (session : Session)
    : option string :=
  scan_history (rev (get_history session)).

(** *** Matching and symptom checker *)

Definition check_emergency (msg : string) : bool * option string :=
  let t := lower msg in
  match find (fun s => str_in s t) EMERGENCY_SIGNS with
  | Some s => (true, Some s)
  | None => (false, None)
  end.

(** First loop of [find_condition_simple]. *)
Definition direct_key (t : string) : option string :=
  find (fun key => str_in key t) (dict_keys (MED_KB E)).

(** Second loop of [find_condition_simple]. *)
Definition keyword_match (t : string) : option string :=
  option_map fst
    (find (fun km =>
             existsb (fun kw => truthy kw && str_in kw t)
                     (keywords (snd km)))
          INDEX).

(** The string the fuzzy tier compares the message with. *)
Definition combined (meta : IndexEntry) : string :=
  (lower (idx_title meta) ++ " " ++ join " " (keywords meta))%string.

(** The list [scores] of the fuzzy tier, before it is sorted. *)
Definition fuzzy_scores (t : string) : list (string * Q) :=
  map (fun km => (fst km, difflib.ratio t (combined (snd km)))) INDEX.

Definition fuzzy_fallback (t : string) : option string * Q :=
  match sort_desc (fuzzy_scores t) with
  | (key, score) :: _ =>
      if Qle_bool (45 # 100) score then (Some key, score) else (None, 0%Q)
  | [] => (None, 0%Q)
  end.

Definition find_condition_simple (msg : string) : option string * Q :=
  let t := lower msg in
  match direct_key t with
  | Some key => (Some key, 1%Q)
  | None =>
      match keyword_match t with
      | Some key => (Some key, 1%Q)
      | None => fuzzy_fallback t
      end
  end.

(** [kw_set = set(k for k in meta["keywords"] if k)]. *)
Definition kw_set_of (meta : IndexEntry) : list string :=
  set_iter E (filter truthy (keywords meta)).

(** The two nested loops that count [hits]. *)
Definition count_hits (kw_set symptoms_list : list string) : nat :=
  fold_left
    (fun hits s =>
       if existsb (fun kw => str_in kw s) kw_set then hits + 1 else hits)
    symptoms_list 0.

(** [hits / max(1, len(kw_set))]. *)
Definition symptom_score (kw_set symptoms_list : list string) : Q :=
  Z.of_nat (count_hits kw_set symptoms_list)
  # Pos.of_nat (Nat.max 1 (length kw_set)).

(** The list [scores] of [symptom_checker], before it is sorted. *)
Definition symptom_scores (symptoms_list : list string)
    : list (string * Q) :=
  flat_map
    (fun km =>
       let kw_set := kw_set_of (snd km) in
       match kw_set with
       | [] => []
       | _ :: _ => [(fst km, symptom_score kw_set symptoms_list)]
       end)
    INDEX.

Definition symptom_checker (symptoms_list : list string) (top_n : nat)
    : list (string * Q) :=
  firstn top_n
    (map (fun ks => (fst ks, round3 E (snd ks)))
         (filter (fun ks => Qlt_bool 0 (snd ks))
                 (sort_desc (symptom_scores symptoms_list)))).

(** *** Medicines and precautions *)

Definition medicine_line (m : MedicineEntry) : result string :=
  match name m with
  | Some n =>
      Ok ("- " ++ n ++ ": " ++ get_or (use m) ""
          ++ " (Warning: " ++ get_or (warning m) "" ++ ")")%string
  | None => Raise (KeyError "name")
  end.

Definition get_medicine_text (condition_key : string)
    : result (option string) :=
  match dict_get condition_key (MEDICINES E) with
  | Some meds =>
      lines <- mapM medicine_line meds ;;
      Ok (Some (join nl lines))
  | None => Ok None
  end.

(** The list [tips] of [get_precaution_text]. *)
Definition precaution_tips (condition_key : option string) : list string :=
  let no_condition := NO_CONDITION_TIPS ++ GENERIC_PRECAUTIONS in
  match condition_key with
  | Some key =>
      if truthy key && dict_in key PRECAUTION_MAP then
        get_or (dict_get key PRECAUTION_MAP) [] ++ firstn 2 GENERIC_PRECAUTIONS
      else if truthy key && dict_in key (MED_KB E) then
        match dict_get key (MED_KB E) with
        | Some info =>
            [ "Follow general supportive measures (rest, fluids, symptom relief).";
              ("Watch for red flags: "
               ++ get_or (when_to_seek_care info) "seek care if concerned.")%string ]
            ++ firstn 1 GENERIC_PRECAUTIONS
        | None => no_condition
        end
      else no_condition
  | None => no_condition
  end.

Definition get_precaution_text (condition_key : option string) : string :=
  join nl (map (fun t => ("- " ++ t)%string) (precaution_tips condition_key)).

(** *** Small talk *)

Definition match_smalltalk (msg : string) : option string :=
  let t := lower msg in
  match find (fun qa => str_in (fst qa) t) QA_MAP with
  | Some qa => Some (snd qa)
  | None =>
      match find (fun pr => re_search E (fst pr) t) SMALLTALK_PATTERNS with
      | Some pr => hd_error (snd pr)
      | None => None
      end
  end.

(** *** The [/chat] route *)

(** [MED_KB[key]['title']]. *)
Definition kb_title (key : string) : result string :=
  match dict_get key (MED_KB E) with
  | Some info =>
      match title info with
      | Some t => Ok t
      | None => Raise (KeyError "title")
      end
  | None => Raise (KeyError key)
  end.

Definition emergency_reply (sign : string) : string :=
  ("⚠️ The symptom '" ++ sign
   ++ "' may be life-threatening. Contact emergency services immediately.")%string.

(** An answer with status 200. *)
Definition answer (stage : Stage) (session : Session) (text : string)
    (cands : option (list Candidate)) : Stage * Response * Session :=
  (stage,
   {| reply := text; disclaimer := DISCLAIMER;
      history := Some (get_history session); candidates := cands;
      status := 200 |},
   session).

(** The body of the [try] block; [msg] is the stripped message and is
    not empty. *)
Definition chat_body (msg : string) (symptom_mode : bool) (session : Session)
    : result (Stage * Response * Session) :=
  let (emergency, sign) := check_emergency msg in
  if emergency then
    let reply := emergency_reply (get_or sign "") in
    Ok (answer Emergency (add_to_history session msg reply None) reply None)
  else
  let small := match_smalltalk msg in
  if truthy_opt small then
    let small := get_or small "" in
    Ok (answer Smalltalk (add_to_history session msg small None) small None)
  else
  let lower_msg := lower msg in
  let intent_prec_med := existsb (fun kw => str_in kw lower_msg) INTENT_KEYWORDS in
  let matched_cond := fst (find_condition_simple msg) in
  if intent_prec_med then
    if truthy_opt matched_cond then
      let key := get_or matched_cond "" in
      let prec_text := get_precaution_text matched_cond in
      med <- get_medicine_text key ;;
      let med_text := str_or med NO_MEDICINE in
      t <- kb_title key ;;
      let reply :=
        ("Precautions for **" ++ t ++ "**:" ++ nl ++ prec_text ++ nl ++ nl
         ++ "Non-prescription suggestions:" ++ nl ++ med_text ++ nl ++ nl
         ++ DISCLAIMER)%string in
      Ok (answer PrecautionNamed
            (add_to_history session msg reply matched_cond) reply None)
    else
    let last_cond := last_matched_condition_from_history session in
    if truthy_opt last_cond then
      let key := get_or last_cond "" in
      let prec_text := get_precaution_text last_cond in
      med <- get_medicine_text key ;;
      let med_text := str_or med NO_MEDICINE in
      t <- kb_title key ;;
      let reply :=
        ("Based on your previous condition (**" ++ t
         ++ "**), here are precautions and non-prescription suggestions:"
         ++ nl ++ prec_text ++ nl ++ nl
         ++ "Non-prescription suggestions:" ++ nl ++ med_text ++ nl ++ nl
         ++ DISCLAIMER)%string in
      Ok (answer PrecautionPrevious
            (add_to_history session msg reply last_cond) reply None)
    else
      let prec_text := get_precaution_text None in
      let reply :=
        ("I don't know which condition you mean. Here are general precautions you can follow while you tell me the specific condition:"
         ++ nl ++ prec_text ++ nl ++ nl
         ++ "Please say the condition (e.g., 'for fever') or list symptoms (e.g., 'fever, cough')."
         ++ nl ++ nl ++ DISCLAIMER)%string in
      Ok (answer PrecautionGeneric
            (add_to_history session msg reply None) reply None)
  else
  if symptom_mode then
    let parts :=
      map (fun p => lower (strip p))
          (filter (fun p => truthy (strip p)) (re_split E ",|;| and " msg)) in
    let candidates := symptom_checker parts 6 in
    cand_structs <-
      mapM (fun ks =>
              t <- kb_title (fst ks) ;;
              Ok {| cand_key := fst ks; cand_title := t;
                    cand_score := snd ks |})
           candidates ;;
    let reply_text :=
      fold_left
        (fun text c =>
           (text ++ "- " ++ cand_title c ++ " (score: "
            ++ float_str E (cand_score c) ++ ")" ++ nl)%string)
        cand_structs
        ("Possible matches (symptom-checker):" ++ nl)%string in
    Ok (answer SymptomMode (add_to_history session msg reply_text None)
          reply_text (Some cand_structs))
  else
  let (cond, score) := find_condition_simple msg in
  if truthy_opt cond then
    let key := get_or cond "" in
    match dict_get key (MED_KB E) with
    | None => Raise (KeyError key)
    | Some info =>
        med_info <- get_medicine_text key ;;
        t <- kb_title key ;;
        let reply :=
          ("**" ++ t ++ "**" ++ nl ++ "Symptoms: "
           ++ join ", " (get_or (symptoms info) []) ++ nl ++ nl
           ++ get_or (description info) "" ++ nl ++ nl
           ++ "When to seek care: " ++ get_or (when_to_seek_care info) "")%string in
        let reply :=
          if truthy_opt med_info
          then (reply ++ nl ++ nl ++ "Possible non-prescription options:"
                ++ nl ++ get_or med_info "")%string
          else reply in
        Ok (answer ConditionDetail (add_to_history session msg reply cond)
              reply None)
    end
  else
    Ok (answer Fallback (add_to_history session msg FALLBACK None)
          FALLBACK None).

(** The view function of [/chat]: the stage that answered, the answer,
    and the session after the request. *)
Definition chat (data : Payload) (session : Session)
    : Stage * Response * Session :=
  let msg := strip (get_or (message data) "") in
  if negb (truthy msg) then
    (EmptyInput,
     {| reply := "Please type your symptoms or question.";
        disclaimer := DISCLAIMER; history := None; candidates := None;
        status := 200 |},
     session)
  else
    match chat_body msg (symptom_mode data) session with
    | Ok r => r
    | Raise _ =>
        (ServerError,
         {| reply := "Server error occurred."; disclaimer := DISCLAIMER;
            history := None; candidates := None; status := 500 |},
         session)
    end.

(** [(data.get("message") or "")], then the lookup of [.strip] on it: the
    text that is stripped, or [None] when the value is true and is not a
    string, which raises [AttributeError]. *)
Definition message_text (v : option Json) : option string :=
  match v with
  | None => Some ""
  | Some j =>
      if json_truthy j then
        match j with
        | JStr s => Some s
        | _ => None
        end
      else Some ""
  end.

(** The first three statements of the [try] block. The body is [None]
    when [request.get_json()] raises; the result is [None] when one of
    the three statements raises: [get_json()] itself, [data.get] on a
    true value that is not a dictionary, or [.strip] on a true message
    that is not a string. [bool(...)] never raises. *)
Definition read_payload (body : option Json) : option Payload :=
  match body with
  | None => None
  | Some j =>
      match (if json_truthy j then j else JDict []) with
      | JDict data =>
          match message_text (dict_get "message" data) with
          | Some text =>
              Some {| message := Some text;
                      symptom_mode :=
                        match dict_get "symptom_mode" data with
                        | Some v => json_truthy v
                        | None => false
                        end |}
          | None => None
          end
      | _ => None
      end
  end.

(** The view function of [/chat] from the body of the request. *)
Definition chat_request (body : option Json) (session : Session)
    : Stage * Response * Session :=
  match read_payload body with
  | Some data => chat data session
  | None =>
      (ServerError,
       {| reply := "Server error occurred."; disclaimer := DISCLAIMER;
          history := None; candidates := None; status := 500 |},
       session)
  end.

End App.

(** ** Notions the statements use *)


(** An enumeration order lists the elements that were put into the set,
    each once. *)
Definition set_model (iter : list string -> list string) : Prop :=
  forall l, NoDup (iter l) /\ forall x, In x (iter l) <-> In x l.

(** White space at the two ends of a string. *)
Fixpoint all_space (s : string) : bool :=
  match s with
  | EmptyString => true
  | String c s' => is_space c && all_space s'
  end.

Definition first_nonspace (s : string) : bool :=
  match s with
  | EmptyString => false
  | String c _ => negb (is_space c)
  end.

Fixpoint last_nonspace (s : string) : bool :=
  match s with
  | EmptyString => false
  | String c EmptyString => negb (is_space c)
  | String _ s' => last_nonspace s'
  end.

(** The turns that [chat] stores never hold an empty condition key; the
    statements about the history read a condition that is present as a
    key. *)
Definition conditions_nonempty (hist : list DialogTurn) : Prop :=
  Forall (fun e => condition e <> Some ""%string) hist.

(** [p] is the first element of [l] with the greatest score. *)
Definition first_max (l : list (string * Q)) (p : string * Q) : Prop :=
  exists pre post,
    l = pre ++ p :: post /\
    (forall x, In x pre -> (snd x < snd p)%Q) /\
    (forall x, In x post -> (snd x <= snd p)%Q).

(** The match [m] lies inside the two windows. *)
Definition in_range (alo ahi blo bhi : nat) (m : difflib.Match) : Prop :=
  alo <= fst (fst m) /\ fst (fst m) + difflib.size m <= ahi /\
  blo <= snd (fst m) /\ snd (fst m) + difflib.size m <= bhi.

Definition sizes (l : list difflib.Match) : nat :=
  list_sum (map difflib.size l).

(** The length of the [a] windows waiting in the queue, of the [b]
    windows, and the number of rounds the queue can still cause. *)
Definition queue_a (q : list (nat * nat * nat * nat)) : nat :=
  list_sum (map (fun w => snd (fst (fst w)) - fst (fst (fst w))) q).

Definition queue_b (q : list (nat * nat * nat * nat)) : nat :=
  list_sum (map (fun w => snd w - snd (fst w)) q).

Definition queue_rounds (q : list (nat * nat * nat * nat)) : nat :=
  list_sum
    (map (fun w => 2 * (snd (fst (fst w)) - fst (fst (fst w))) + 1) q).

Definition window_ok (w : nat * nat * nat * nat) : Prop :=
  fst (fst (fst w)) <= snd (fst (fst w)) /\ snd (fst w) <= snd w.

(** [x] stands before [y] in a list sorted by descending score. *)
Definition score_desc (x y : string * Q) : Prop := (snd y <= snd x)%Q.

(** An uppercase ASCII letter, and a string that holds one. *)
Definition is_upper (c : ascii) : bool :=
  let n := nat_of_ascii c in (65 <=? n) && (n <=? 90).

Fixpoint has_upper (s : string) : bool :=
  match s with
  | EmptyString => false
  | String c s' => is_upper c || has_upper s'
  end.

(** Every entry of the knowledge base has a title and every entry of the
    catalogue has a name: the two fields the source reads with [[...]]
    and not with [.get]. *)
Definition kb_complete (E : Env) : Prop :=
  (forall key item, In (key, item) (MED_KB E) -> title item <> None) /\
  (forall key meds m,
      In (key, meds) (MEDICINES E) -> In m meds -> name m <> None).

(** A keyword of the entry [item], not empty, occurs in the text [t]: the
    lowercased title or a lowercased symptom phrase. *)
Definition keyword_hit (t : string) (item : ConditionEntry) : Prop :=
  exists kw,
    (kw = lower (get_or (title item) "") \/
     exists s, In s (get_or (symptoms item) []) /\ kw = lower s) /\
    kw <> ""%string /\ str_in kw t = true.

(** The body cannot be read: [get_json()] raises, or the body is a true
    value that is not a dictionary, or its message is a true value that
    is not a string. *)
Definition unreadable (body : option Json) : Prop :=
  body = None \/
  (exists j, body = Some j /\ json_truthy j = true /\
             forall data, j <> JDict data) \/
  (exists data v,
      body = Some (JDict data) /\ dict_get "message" data = Some v /\
      json_truthy v = true /\ forall s, v <> JStr s).

(** The conditions stored in the history are keys of the knowledge
    base. *)
Definition history_known (E : Env) (hist : list DialogTurn) : Prop :=
  Forall (fun e => match condition e with
                   | Some c => In c (dict_keys (MED_KB E))
                   | None => True
                   end) hist.

(** ** Example data

    A small knowledge base, a medicine catalogue and two enumeration
    orders for sets, used to run the definitions on concrete requests. *)

(** An entry without a title, with an empty symptom phrase. *)
Definition allergy_entry : ConditionEntry :=
  {| title := None;
     symptoms := Some ["itchy eyes"; ""];
     description := None;
     when_to_seek_care := Some "Swelling of the face or trouble breathing." |}.

Definition example_kb : list (string * ConditionEntry) :=
  [ ("fever",
     {| title := Some "Fever";
        symptoms := Some ["High temperature"; "chills"; "sweating"];
        description := Some "A temporary rise in body temperature.";
        when_to_seek_care := Some "Fever above 39.4 C or lasting more than three days." |});
    ("common_cold",
     {| title := Some "Common Cold";
        symptoms := Some ["runny nose"; "sneezing"; "sore throat"];
        description := Some "A viral infection of the nose and throat.";
        when_to_seek_care := None |});
    ("allergy", allergy_entry) ].

Definition example_medicines : list (string * list MedicineEntry) :=
  [ ("fever",
     [ {| name := Some "Paracetamol"; use := Some "Reduces fever";
          warning := Some "Do not exceed the stated dose" |};
       {| name := Some "Ibuprofen"; use := None; warning := None |} ]);
    ("allergy", []) ].

(** Two enumeration orders of the same sets: first occurrence first, and
    the reverse. *)
Definition first_seen (l : list string) : list string :=
  rev (nodup string_dec (rev l)).

Definition last_seen_first (l : list string) : list string :=
  nodup string_dec (rev l).

(** Stand-ins for the library calls, good for ASCII text and for the
    patterns of the source. Each pattern of [SMALLTALK_PATTERNS] is a
    choice of phrases between two word boundaries. *)
Definition pattern_phrases (pattern : string) : list string :=
  if String.eqb pattern "\bhi\b|\bhello\b|\bhey\b" then
    ["hi"; "hello"; "hey"]
  else if String.eqb pattern "\bhow are you\b|\bhow's it going\b" then
    ["how are you"; "how's it going"]
  else if String.eqb pattern "\bwhat'?s up\b|\bwhats up\b" then
    ["what's up"; "whats up"]
  else if String.eqb pattern "\bthank(s| you)\b" then
    ["thanks"; "thank you"]
  else if String.eqb pattern "\bbye\b|\bgoodbye\b|\bsee you\b" then
    ["bye"; "goodbye"; "see you"]
  else if String.eqb pattern "\bwhat can you do\b|\bwhat are you\b" then
    ["what can you do"; "what are you"]
  else if String.eqb pattern "\btoday i want to discuss\b" then
    ["today i want to discuss"]
  else [].

(** A word character of [re], on ASCII. *)
Definition is_word (c : ascii) : bool :=
  let n := nat_of_ascii c in
  ((48 <=? n) && (n <=? 57)) || ((65 <=? n) && (n <=? 90))
  || (n =? 95) || ((97 <=? n) && (n <=? 122)).

(** [t] starts with the phrase [w], and no word character follows. *)
Fixpoint phrase_at (w t : string) : bool :=
  match w, t with
  | EmptyString, EmptyString => true
  | EmptyString, String c _ => negb (is_word c)
  | String _ _, EmptyString => false
  | String a w', String b t' => Ascii.eqb a b && phrase_at w' t'
  end.

(** The phrase [w] stands somewhere in [t] between two word boundaries;
    [after_word] tells whether a word character stands before [t]. *)
Fixpoint phrase_in (after_word : bool) (w t : string) : bool :=
  (negb after_word && phrase_at w t) ||
  match t with
  | EmptyString => false
  | String c t' => phrase_in (is_word c) w t'
  end.

Definition example_search (pattern t : string) : bool :=
  existsb (fun w => phrase_in false w t) (pattern_phrases pattern).

(** [re.split(",|;| and ", msg)]: [skip] characters of a separator are
    still to be passed over, [piece] is the piece read so far. *)
Fixpoint split_parts (msg : string) (skip : nat) (piece : string)
    : list string :=
  match msg with
  | EmptyString => [piece]
  | String c rest =>
      match skip with
      | S k => split_parts rest k piece
      | 0 =>
          if startswith "," msg || startswith ";" msg
          then piece :: split_parts rest 0 ""
          else if startswith " and " msg
          then piece :: split_parts rest 4 ""
          else split_parts rest 0 (piece ++ String c "")
      end
  end.

Definition example_split (pattern msg : string) : list string :=
  if String.eqb pattern ",|;| and " then split_parts msg 0 "" else [msg].

(** Rounding of the exact quotient to three decimals, half to even. *)
Definition example_round (q : Q) : Q :=
  let n := (q * 1000)%Q in
  let f := Qfloor n in
  let up :=
    match (n - inject_Z f ?= 1 # 2)%Q with
    | Lt => false
    | Eq => Z.odd f
    | Gt => true
    end in
  ((if up then f + 1 else f)%Z # 1000)%Q.

Definition digits (n : nat) : string :=
  NilZero.string_of_uint (Nat.to_uint n).

(** A score of at most three decimals as Python prints it: [2.0], [0.5],
    [0.333]. *)
Definition example_float_str (q : Q) : string :=
  let t := Z.to_nat (Qfloor (q * 1000)%Q) in
  let frac := t mod 1000 in
  let decimals :=
    if frac mod 100 =? 0 then digits (frac / 100)
    else if frac mod 10 =? 0 then
      (digits (frac / 100) ++ digits (frac / 10 mod 10))%string
    else
      (digits (frac / 100) ++ digits (frac / 10 mod 10)
       ++ digits (frac mod 10))%string in
  (digits (t / 1000) ++ "." ++ decimals)%string.

Definition example_env : Env :=
  {| MED_KB := example_kb; MEDICINES := example_medicines;
     set_iter := first_seen; re_search := example_search; re_split := example_split;
     round3 := example_round; float_str := example_float_str |}.

(** The same files read by a process that enumerates sets the other way
    round. *)
Definition example_env_rev : Env :=
  {| MED_KB := example_kb; MEDICINES := example_medicines;
     set_iter := last_seen_first; re_search := example_search;
     re_split := example_split; round3 := example_round; float_str := example_float_str |}.

(** A knowledge base of one condition whose only keyword is its title. *)
Definition fever_only_env : Env :=
  {| MED_KB :=
       [ ("fever",
          {| title := Some "Fever"; symptoms := None; description := None;
             when_to_seek_care := None |}) ];
     MEDICINES := []; set_iter := first_seen; re_search := example_search;
     re_split := example_split; round3 := example_round; float_str := example_float_str |}.

(** The example knowledge base without the entry that has no title. *)
Definition complete_env : Env :=
  {| MED_KB := firstn 2 example_kb; MEDICINES := example_medicines;
     set_iter := first_seen; re_search := example_search;
     re_split := example_split; round3 := example_round;
     float_str := example_float_str |}.

(** A knowledge base of one condition, with the given symptom phrases. *)
Definition hay_fever_env (phrases : list string) : Env :=
  {| MED_KB :=
       [ ("hay_fever",
          {| title := Some "Allergy"; symptoms := Some phrases;
             description := None; when_to_seek_care := None |}) ];
     MEDICINES := []; set_iter := first_seen; re_search := example_search;
     re_split := example_split; round3 := example_round;
     float_str := example_float_str |}.

(** A session of three turns: a condition answer, a symptom-mode answer
    that names no known key, and small talk. *)
Definition example_history : list DialogTurn :=
  [ {| user := "what about fever"; bot := "**Fever** ...";
       condition := Some "fever" |};
    {| user := "itchy eyes, sneezing";
       bot := "Possible matches (symptom-checker): ..."; condition := None |};
    {| user := "thanks"; bot := "You're welcome!"; condition := None |} ].

(** * Properties *)

(** ** Strings *)

Lemma append_empty_r (s : string) : (s ++ "")%string = s.
Proof. induction s as [|c s IH]; simpl; [reflexivity | now rewrite IH]. Qed.

Lemma lower_app (s1 s2 : string) :
  lower (s1 ++ s2) = (lower s1 ++ lower s2)%string.
Proof. induction s1 as [|c s1 IH]; simpl; [reflexivity | now rewrite IH]. Qed.

Lemma startswith_app (p r : string) : startswith p (p ++ r) = true.
Proof.
  induction p as [|c p IH]; simpl; [reflexivity |].
  now rewrite Ascii.eqb_refl, IH.
Qed.

Lemma startswith_spec (p s : string) :
  startswith p s = true <-> exists r, s = (p ++ r)%string.
Proof.
  split.
  - revert s; induction p as [|c p IH]; intros s H.
    + now exists s.
    + destruct s as [|d s]; simpl in H; [discriminate |].
      apply andb_true_iff in H as [Hc Hp].
      apply Ascii.eqb_eq in Hc; subst d.
      destruct (IH _ Hp) as [r ->]. now exists r.
  - intros [r ->]. apply startswith_app.
Qed.

Lemma str_in_startswith (sub s : string) :
  startswith sub s = true -> str_in sub s = true.
Proof. intros H. destruct s; simpl; now rewrite H. Qed.

(** [sub in s] holds exactly when [s] is [pre ++ sub ++ post]. *)
Lemma str_in_spec (sub s : string) :
  str_in sub s = true <->
  exists pre post, s = (pre ++ sub ++ post)%string.
Proof.
  split.
  - induction s as [|c s IH]; simpl; intros H.
    + rewrite orb_false_r in H. apply startswith_spec in H as [r Hr].
      now exists ""%string, r.
    + apply orb_true_iff in H as [H | H].
      * apply startswith_spec in H as [r Hr]. now exists ""%string, r.
      * destruct (IH H) as (pre & post & ->).
        now exists (String c pre), post.
  - intros (pre & post & ->).
    induction pre as [|c pre IH].
    + apply str_in_startswith. cbn [append]. apply startswith_app.
    + change (startswith sub (String c (pre ++ sub ++ post))
              || str_in sub (pre ++ sub ++ post) = true).
      rewrite IH. apply orb_true_r.
Qed.

Lemma str_in_refl (s : string) : str_in s s = true.
Proof.
  apply str_in_spec. exists ""%string, ""%string.
  simpl. now rewrite append_empty_r.
Qed.

Lemma str_in_nonempty (sub s : string) :
  truthy sub = true -> str_in sub s = true -> truthy s = true.
Proof.
  destruct sub as [|c sub]; [discriminate |].
  destruct s; [discriminate | reflexivity].
Qed.

(** ** White space and [strip] *)

Lemma is_space_lower (c : ascii) : is_space (lower_ascii c) = is_space c.
Proof. destruct c as [[] [] [] [] [] [] [] []]; reflexivity. Qed.

Lemma all_space_lower (s : string) : all_space (lower s) = all_space s.
Proof.
  induction s as [|c s IH]; simpl; [reflexivity |].
  now rewrite is_space_lower, IH.
Qed.

Lemma lstrip_decomp (s : string) :
  exists l, all_space l = true /\ s = (l ++ lstrip s)%string.
Proof.
  induction s as [|c s (l & Hl & Hs)]; simpl.
  - now exists ""%string.
  - destruct (is_space c) eqn:Hc.
    + exists (String c l). simpl. rewrite Hc, Hl. split; [reflexivity |].
      now rewrite <- Hs.
    + now exists ""%string.
Qed.

Lemma rstrip_decomp (s : string) :
  exists r, all_space r = true /\ s = (rstrip s ++ r)%string.
Proof.
  induction s as [|c s (r & Hr & Hs)]; simpl.
  - now exists ""%string.
  - destruct (rstrip s) as [|d t] eqn:Ht.
    + simpl in Hs. subst s. destruct (is_space c) eqn:Hc.
      * exists (String c r). simpl. now rewrite Hc, Hr.
      * now exists r.
    + exists r. split; [assumption |]. cbn [append] in *. now rewrite <- Hs.
Qed.

(** [s] is its stripped text between two runs of white space. *)
Lemma strip_decomp (s : string) :
  exists l r, all_space l = true /\ all_space r = true /\
              s = (l ++ strip s ++ r)%string.
Proof.
  destruct (lstrip_decomp s) as (l & Hl & Hs).
  destruct (rstrip_decomp (lstrip s)) as (r & Hr & Ht).
  exists l, r. repeat split; try assumption.
  unfold strip. now rewrite <- Ht.
Qed.

Lemma startswith_all_space (sub s : string) :
  startswith sub s = true -> all_space s = true -> all_space sub = true.
Proof.
  revert s; induction sub as [|a sub IH]; intros [|c s]; simpl; try easy.
  intros H1 H2.
  apply andb_true_iff in H1 as [Ha Hs]. apply Ascii.eqb_eq in Ha; subst c.
  apply andb_true_iff in H2 as [Hc Hr].
  now rewrite Hc, (IH _ Hs Hr).
Qed.

Lemma last_nonspace_not_all_space (s : string) :
  last_nonspace s = true -> all_space s = false.
Proof.
  induction s as [|c s IH]; simpl; [discriminate |].
  destruct s as [|d s].
  - intros H. apply negb_true_iff in H. now rewrite H.
  - intros H. rewrite (IH H). apply andb_false_r.
Qed.

Lemma startswith_trim_right (sub x r : string) :
  last_nonspace sub = true -> all_space r = true ->
  startswith sub (x ++ r) = startswith sub x.
Proof.
  intros Hsub Hr. revert sub Hsub.
  induction x as [|c x IH]; intros sub Hsub.
  - simpl. destruct sub as [|a sub]; [discriminate |].
    destruct (startswith (String a sub) r) eqn:H; [| reflexivity].
    apply startswith_all_space in H; [| assumption].
    apply last_nonspace_not_all_space in Hsub. congruence.
  - destruct sub as [|a sub]; [discriminate |]. simpl.
    destruct sub as [|a' sub].
    + reflexivity.
    + now rewrite (IH (String a' sub)).
Qed.

Lemma str_in_trim_right (sub m r : string) :
  last_nonspace sub = true -> all_space r = true ->
  str_in sub (m ++ r) = str_in sub m.
Proof.
  intros Hsub Hr. induction m as [|c m IH].
  - simpl. destruct sub as [|a sub]; [discriminate |].
    assert (Hno : forall r', all_space r' = true ->
                             str_in (String a sub) r' = false).
    { clear Hr. intros r'. induction r' as [|d r' IHr]; intros Hr'.
      - reflexivity.
      - simpl in Hr'. apply andb_true_iff in Hr' as [Hd Hr'].
        change (str_in (String a sub) (String d r'))
          with (startswith (String a sub) (String d r')
                || str_in (String a sub) r').
        rewrite (IHr Hr'), orb_false_r.
        destruct (startswith (String a sub) (String d r')) eqn:H;
          [| reflexivity].
        apply startswith_all_space in H;
          [| simpl; now rewrite Hd, Hr'].
        apply last_nonspace_not_all_space in Hsub. congruence. }
    now rewrite Hno.
  - change (str_in sub (String c m ++ r))
      with (startswith sub (String c m ++ r) || str_in sub (m ++ r)).
    change (str_in sub (String c m))
      with (startswith sub (String c m) || str_in sub m).
    now rewrite IH, startswith_trim_right.
Qed.

Lemma str_in_trim_left (sub l x : string) :
  first_nonspace sub = true -> all_space l = true ->
  str_in sub (l ++ x) = str_in sub x.
Proof.
  intros Hsub Hl. induction l as [|c l IH]; [reflexivity |].
  simpl in Hl. apply andb_true_iff in Hl as [Hc Hl].
  change (str_in sub (String c l ++ x))
    with (startswith sub (String c (l ++ x)) || str_in sub (l ++ x)).
  rewrite (IH Hl).
  destruct sub as [|a sub]; [discriminate |]. simpl in Hsub.
  simpl. destruct (Ascii.eqb a c) eqn:Hac; [| reflexivity].
  apply Ascii.eqb_eq in Hac; subst c.
  rewrite Hc in Hsub. discriminate.
Qed.

(** Stripping a message and lowering it keeps and adds no occurrence of
    a phrase that neither starts nor ends with white space. *)
Lemma str_in_lower_strip (sub raw : string) :
  first_nonspace sub = true -> last_nonspace sub = true ->
  str_in sub (lower (strip raw)) = str_in sub (lower raw).
Proof.
  intros Hf Hl.
  destruct (strip_decomp raw) as (l & r & Hls & Hrs & Hraw).
  rewrite Hraw at 2. rewrite !lower_app.
  rewrite str_in_trim_left by (try assumption; now rewrite all_space_lower).
  rewrite str_in_trim_right by (try assumption; now rewrite all_space_lower).
  reflexivity.
Qed.

(** ** Lists *)

Lemma find_ext_in {A : Type} (f g : A -> bool) (l : list A) :
  (forall x, In x l -> f x = g x) -> find f l = find g l.
Proof.
  induction l as [|x l IH]; intros H; simpl; [reflexivity |].
  rewrite (H x (or_introl eq_refl)).
  destruct (g x); [reflexivity |].
  apply IH. intros y Hy. apply H. now right.
Qed.

Lemma find_exists {A : Type} (f : A -> bool) (l : list A) (x : A) :
  In x l -> f x = true -> exists y, find f l = Some y.
Proof.
  intros Hin Hx. destruct (find f l) as [y|] eqn:Hf.
  - now exists y.
  - rewrite (find_none f l Hf x Hin) in Hx. discriminate.
Qed.

(** [find] returns the first element that passes the test. *)
Lemma find_first {A : Type} (f : A -> bool) (l : list A) (y : A) :
  find f l = Some y <->
  exists pre post,
    l = pre ++ y :: post /\ f y = true /\ forall x, In x pre -> f x = false.
Proof.
  split.
  - revert y. induction l as [|x l IH]; simpl; intros y H; [discriminate |].
    destruct (f x) eqn:Hx.
    + injection H as <-. exists [], l. repeat split; [assumption |].
      intros z [].
    + destruct (IH _ H) as (pre & post & -> & Hy & Hpre).
      exists (x :: pre), post. repeat split; [assumption |].
      intros z [<- | Hz]; [assumption | now apply Hpre].
  - intros (pre & post & -> & Hy & Hpre).
    induction pre as [|x pre IH]; simpl.
    + now rewrite Hy.
    + rewrite (Hpre x (or_introl eq_refl)). apply IH.
      intros z Hz. apply Hpre. now right.
Qed.

(** ** The emergency stage *)

Lemma emergency_signs_edges (s : string) :
  In s EMERGENCY_SIGNS ->
  truthy s = true /\ first_nonspace s = true /\ last_nonspace s = true.
Proof.
  intros H. simpl in H.
  repeat (destruct H as [<- | H]; [now repeat split |]).
  contradiction.
Qed.

Lemma truthy_lower (s : string) : truthy (lower s) = truthy s.
Proof. destruct s; reflexivity. Qed.

(** [check_emergency] reads the same phrase from a message and from the
    message stripped. *)
Lemma find_emergency_strip (raw : string) :
  find (fun s => str_in s (lower (strip raw))) EMERGENCY_SIGNS =
  find (fun s => str_in s (lower raw)) EMERGENCY_SIGNS.
Proof.
  apply find_ext_in. intros s Hs.
  destruct (emergency_signs_edges s Hs) as (_ & Hf & Hl).
  now apply str_in_lower_strip.
Qed.

(** C1. A message whose lowercased text contains an emergency phrase is
    answered by the emergency stage of [chat], whatever the knowledge base,
    the catalogue, the session and the symptom-mode flag are: the reply is
    the emergency warning for the first phrase of [EMERGENCY_SIGNS] found
    in the message, and the turn appended to the history has no condition.
    No other stage answers, also when the message names a condition key. *)
Theorem emergency_short_circuits (E : Env) (data : Payload)
    (session : Session) (raw sign : string) :
  message data = Some raw ->
  In sign EMERGENCY_SIGNS ->
  str_in sign (lower raw) = true ->
  exists first,
    find (fun s => str_in s (lower raw)) EMERGENCY_SIGNS = Some first /\
    chat E data session =
      (Emergency,
       {| reply := emergency_reply first;
          disclaimer := DISCLAIMER;
          history :=
            Some (get_history session
                  ++ [ {| user := strip raw; bot := emergency_reply first;
                          condition := None |} ]);
          candidates := None;
          status := 200 |},
       Some (get_history session
             ++ [ {| user := strip raw; bot := emergency_reply first;
                     condition := None |} ])).
Proof.
  intros Hmsg Hin Hsign.
  destruct (find_exists (fun s => str_in s (lower raw)) _ _ Hin Hsign)
    as [first Hfirst].
  exists first. split; [assumption |].
  destruct (find_some _ _ Hfirst) as [Hfin Hfound].
  destruct (emergency_signs_edges first Hfin) as (Hne & Hf & Hl).
  assert (Hmsg' : truthy (strip raw) = true).
  { rewrite <- truthy_lower.
    apply (str_in_nonempty first); [assumption |].
    now rewrite str_in_lower_strip. }
  unfold chat. rewrite Hmsg. cbn [get_or]. rewrite Hmsg'. cbn [negb].
  unfold chat_body, check_emergency.
  rewrite find_emergency_strip, Hfirst. reflexivity.
Qed.

(** The theorem at a request that names both an emergency phrase and the
    condition key [fever]. *)
Lemma emergency_short_circuits_witness :
  exists first,
    find (fun s => str_in s (lower "  I have Chest Pain and fever "))
         EMERGENCY_SIGNS = Some first /\
    chat example_env
         {| message := Some "  I have Chest Pain and fever ";
            symptom_mode := true |}
         None =
      (Emergency,
       {| reply := emergency_reply first;
          disclaimer := DISCLAIMER;
          history :=
            Some (get_history None
                  ++ [ {| user := strip "  I have Chest Pain and fever ";
                          bot := emergency_reply first;
                          condition := None |} ]);
          candidates := None;
          status := 200 |},
       Some (get_history None
             ++ [ {| user := strip "  I have Chest Pain and fever ";
                     bot := emergency_reply first;
                     condition := None |} ])).
Proof.
  apply (emergency_short_circuits example_env
           {| message := Some "  I have Chest Pain and fever ";
              symptom_mode := true |}
           None "  I have Chest Pain and fever " "chest pain").
  - reflexivity.
  - simpl. now left.
  - reflexivity.
Defined.

(** ** The direct-key tier *)

(** C5. When the lowercased message contains a key [K] of the knowledge
    base, [find_condition_simple] answers in its first loop with score 1.0
    and the first key, in the order of the knowledge base, that the message
    contains; that key is [K] itself when no earlier key is contained. *)
Theorem direct_key_first_wins (E : Env) (msg K : string) :
  In K (dict_keys (MED_KB E)) ->
  str_in K (lower msg) = true ->
  exists K0 pre post,
    dict_keys (MED_KB E) = pre ++ K0 :: post /\
    str_in K0 (lower msg) = true /\
    (forall k, In k pre -> str_in k (lower msg) = false) /\
    find_condition_simple E msg = (Some K0, 1%Q) /\
    (forall pre' post',
        dict_keys (MED_KB E) = pre' ++ K :: post' ->
        (forall k, In k pre' -> str_in k (lower msg) = false) ->
        K0 = K).
Proof.
  intros Hin HK.
  destruct (find_exists (fun key => str_in key (lower msg)) _ _ Hin HK)
    as [K0 HK0].
  destruct (proj1 (find_first _ _ _) HK0) as (pre & post & Hkeys & H0 & Hpre).
  exists K0, pre, post. repeat split; try assumption.
  - unfold find_condition_simple, direct_key. now rewrite HK0.
  - intros pre' post' Hkeys' Hpre'.
    assert (Hf : find (fun key => str_in key (lower msg))
                      (dict_keys (MED_KB E)) = Some K).
    { apply find_first. now exists pre', post'. }
    congruence.
Qed.

(** The theorem at a message that contains the second and the first key of
    the example knowledge base. *)
Lemma direct_key_first_wins_witness :
  exists K0 pre post,
    dict_keys (MED_KB example_env) = pre ++ K0 :: post /\
    str_in K0 (lower "Is COMMON_COLD worse than Fever?") = true /\
    (forall k, In k pre ->
               str_in k (lower "Is COMMON_COLD worse than Fever?") = false) /\
    find_condition_simple example_env "Is COMMON_COLD worse than Fever?"
      = (Some K0, 1%Q) /\
    (forall pre' post',
        dict_keys (MED_KB example_env) = pre' ++ "common_cold" :: post' ->
        (forall k, In k pre' ->
                   str_in k (lower "Is COMMON_COLD worse than Fever?") = false) ->
        K0 = "common_cold").
Proof.
  apply (direct_key_first_wins example_env
           "Is COMMON_COLD worse than Fever?" "common_cold").
  - simpl. right. now left.
  - reflexivity.
Defined.

(** ** The last condition of a session *)

Lemma scan_history_app (E : Env) (older : list DialogTurn) (entry : DialogTurn) :
  last_matched_condition_from_history E (Some (older ++ [entry])) =
  if truthy_opt (condition entry) then condition entry
  else match key_in_text E (lower (bot entry)) with
       | Some key => Some key
       | None => last_matched_condition_from_history E (Some older)
       end.
Proof.
  unfold last_matched_condition_from_history, get_history, get_or.
  now rewrite rev_unit.
Qed.

Lemma truthy_opt_nonempty (o : option string) :
  o <> Some ""%string ->
  truthy_opt o = match o with Some _ => true | None => false end.
Proof. destruct o as [[|c s]|]; simpl; congruence. Qed.

(** C4. [last_matched_condition_from_history] walks the history from the
    newest turn to the oldest. A turn answers with its stored condition
    when it has one, else with the first key of the knowledge base found in
    its lowercased bot text, else the walk goes on with the older turns.
    The result is [None] for a session without history, for an empty
    history and when no turn answers; otherwise it is the answer of the
    most recently appended turn that answers. *)
Theorem last_condition_walk (E : Env) (hist : list DialogTurn) :
  conditions_nonempty hist ->
  last_matched_condition_from_history E None = None /\
  last_matched_condition_from_history E (Some []) = None /\
  (forall older entry,
      hist = older ++ [entry] ->
      last_matched_condition_from_history E (Some hist) =
      match condition entry with
      | Some c => Some c
      | None =>
          match find (fun key => str_in key (lower (bot entry)))
                     (dict_keys (MED_KB E)) with
          | Some key => Some key
          | None => last_matched_condition_from_history E (Some older)
          end
      end) /\
  ((forall e, In e hist ->
        condition e = None /\
        find (fun key => str_in key (lower (bot e))) (dict_keys (MED_KB E))
        = None) ->
   last_matched_condition_from_history E (Some hist) = None) /\
  (forall older entry newer c,
      hist = older ++ entry :: newer ->
      (forall e, In e newer ->
         condition e = None /\
         find (fun key => str_in key (lower (bot e))) (dict_keys (MED_KB E))
         = None) ->
      (condition entry = Some c \/
       (condition entry = None /\
        find (fun key => str_in key (lower (bot entry)))
             (dict_keys (MED_KB E)) = Some c)) ->
      last_matched_condition_from_history E (Some hist) = Some c).
Proof.
  intros Hne.
  assert (Hskip : forall older newer,
             (forall e, In e newer ->
                condition e = None /\
                find (fun key => str_in key (lower (bot e)))
                     (dict_keys (MED_KB E)) = None) ->
             last_matched_condition_from_history E (Some (older ++ newer)) =
             last_matched_condition_from_history E (Some older)).
  { intros older newer. induction newer as [|e newer IH] using rev_ind.
    - intros _. now rewrite app_nil_r.
    - intros H. rewrite app_assoc, scan_history_app.
      destruct (H e) as [Hc Hk]; [apply in_or_app; right; now left |].
      rewrite Hc. cbn [truthy_opt]. unfold key_in_text. rewrite Hk.
      apply IH. intros e' He'. apply H. apply in_or_app. now left. }
  assert (Hlast : forall older entry,
             condition entry <> Some ""%string ->
             last_matched_condition_from_history E (Some (older ++ [entry])) =
             match condition entry with
             | Some c => Some c
             | None =>
                 match find (fun key => str_in key (lower (bot entry)))
                            (dict_keys (MED_KB E)) with
                 | Some key => Some key
                 | None => last_matched_condition_from_history E (Some older)
                 end
             end).
  { intros older entry Hc. rewrite scan_history_app.
    rewrite (truthy_opt_nonempty _ Hc).
    destruct (condition entry); reflexivity. }
  repeat split.
  - intros older entry ->. apply Hlast.
    apply Forall_app in Hne as [_ Hne]. now inversion Hne.
  - intros Hnone. exact (Hskip [] hist Hnone).
  - intros older entry newer c -> Hnewer Hentry.
    change (older ++ entry :: newer) with (older ++ [entry] ++ newer).
    rewrite app_assoc, (Hskip _ _ Hnewer), Hlast.
    + destruct Hentry as [-> | [-> ->]]; reflexivity.
    + apply Forall_app in Hne as [_ Hne]. now inversion Hne.
Qed.

(** The theorem at a session whose two newest turns name no condition. *)
Lemma last_condition_walk_witness :
  last_matched_condition_from_history example_env None = None /\
  last_matched_condition_from_history example_env (Some []) = None /\
  (forall older entry,
      example_history = older ++ [entry] ->
      last_matched_condition_from_history example_env (Some example_history) =
      match condition entry with
      | Some c => Some c
      | None =>
          match find (fun key => str_in key (lower (bot entry)))
                     (dict_keys (MED_KB example_env)) with
          | Some key => Some key
          | None =>
              last_matched_condition_from_history example_env (Some older)
          end
      end) /\
  ((forall e, In e example_history ->
        condition e = None /\
        find (fun key => str_in key (lower (bot e)))
             (dict_keys (MED_KB example_env)) = None) ->
   last_matched_condition_from_history example_env (Some example_history)
   = None) /\
  (forall older entry newer c,
      example_history = older ++ entry :: newer ->
      (forall e, In e newer ->
         condition e = None /\
         find (fun key => str_in key (lower (bot e)))
              (dict_keys (MED_KB example_env)) = None) ->
      (condition entry = Some c \/
       (condition entry = None /\
        find (fun key => str_in key (lower (bot entry)))
             (dict_keys (MED_KB example_env)) = Some c)) ->
      last_matched_condition_from_history example_env (Some example_history)
      = Some c).
Proof.
  apply (last_condition_walk example_env example_history).
  unfold conditions_nonempty, example_history.
  repeat constructor; simpl; discriminate.
Defined.

(** On the example session the walk passes the two newest turns and
    answers with the condition of the oldest. *)
Example last_condition_example :
  last_matched_condition_from_history example_env (Some example_history)
  = Some "fever"%string.
Proof. reflexivity. Qed.

(** ** One request, at most one turn *)

(** Splits the goal on the next call that may raise; the branch that
    raises leaves the session as it was. *)
Ltac on_raise tac :=
  match goal with
  | |- context [bind ?r _] =>
      destruct r; cbn [bind]; [| solve [tac]]
  end.

(** What a request does to the session. Either nothing (empty input, or
    an exception caught by the route), or one turn is appended that holds
    the stripped message, the reply, and a condition that is [None] or a
    non-empty key. *)
Lemma chat_outcome (E : Env) (data : Payload) (session : Session) :
  (snd (chat E data session) = session /\
   history (snd (fst (chat E data session))) = None /\
   (fst (fst (chat E data session)) = EmptyInput \/
    fst (fst (chat E data session)) = ServerError)) \/
  (exists cond,
      snd (chat E data session) =
      add_to_history session (strip (get_or (message data) ""))
                     (reply (snd (fst (chat E data session)))) cond /\
      history (snd (fst (chat E data session))) =
      Some (get_history (snd (chat E data session))) /\
      status (snd (fst (chat E data session))) = 200 /\
      (cond = None \/ truthy_opt cond = true)).
Proof.
  unfold chat.
  destruct (negb (truthy (strip (get_or (message data) ""))));
    [left; repeat split; now left |].
  unfold chat_body.
  destruct (check_emergency _) as [[] sign].
  { right. exists None. cbn. repeat split. now left. }
  destruct (truthy_opt (match_smalltalk E _)).
  { right. exists None. cbn. repeat split. now left. }
  destruct (existsb _ INTENT_KEYWORDS).
  - destruct (truthy_opt (fst (find_condition_simple E _))) eqn:Hm.
    + on_raise ltac:(left; repeat split; now right).
      on_raise ltac:(left; repeat split; now right).
      right. eexists. cbn. repeat split. now right.
    + destruct (truthy_opt (last_matched_condition_from_history E session))
        eqn:Hl.
      * on_raise ltac:(left; repeat split; now right).
        on_raise ltac:(left; repeat split; now right).
        right. eexists. cbn. repeat split. now right.
      * right. exists None. cbn. repeat split. now left.
  - destruct (symptom_mode data).
    + on_raise ltac:(left; repeat split; now right).
      right. exists None. cbn. repeat split. now left.
    + destruct (find_condition_simple E _) as [cond score].
      destruct (truthy_opt cond) eqn:Hc.
      * destruct (dict_get _ _); [| left; repeat split; now right].
        on_raise ltac:(left; repeat split; now right).
        on_raise ltac:(left; repeat split; now right).
        right. eexists. cbn. repeat split. now right.
      * right. exists None. cbn. repeat split. now left.
Qed.

(** [chat] stores a condition only behind a truth test, so the histories
    it builds satisfy [conditions_nonempty]. *)
Lemma chat_conditions_nonempty (E : Env) (data : Payload) (session : Session) :
  conditions_nonempty (get_history session) ->
  conditions_nonempty (get_history (snd (chat E data session))).
Proof.
  intros Hs.
  destruct (chat_outcome E data session)
    as [(-> & _) | (cond & -> & _ & _ & Hcond)]; [assumption |].
  unfold add_to_history. cbn [get_history get_or].
  apply Forall_app. split; [assumption |].
  repeat constructor. cbn [condition].
  destruct Hcond as [-> | Hc]; [discriminate |].
  destruct cond as [[|c r]|]; simpl in Hc; congruence.
Qed.

Lemma chat_conditions_nonempty_witness :
  conditions_nonempty
    (get_history
       (snd (chat example_env
               {| message := Some "what medicine for sneezing"%string;
                  symptom_mode := false |}
               (Some example_history)))).
Proof.
  apply (chat_conditions_nonempty example_env
           {| message := Some "what medicine for sneezing"%string;
              symptom_mode := false |}
           (Some example_history)).
  unfold conditions_nonempty, example_history.
  repeat constructor; simpl; discriminate.
Defined.

(** A request never removes a turn from the history and appends at most
    one; the turn it appends holds the stripped message and the reply, and
    the answer then carries the whole history with status 200. *)
Theorem chat_appends_at_most_one_turn (E : Env) (data : Payload)
    (session : Session) :
  get_history (snd (chat E data session)) = get_history session \/
  exists turn,
    get_history (snd (chat E data session)) = get_history session ++ [turn] /\
    user turn = strip (get_or (message data) "") /\
    bot turn = reply (snd (fst (chat E data session))) /\
    history (snd (fst (chat E data session)))
    = Some (get_history session ++ [turn]) /\
    status (snd (fst (chat E data session))) = 200.
Proof.
  destruct (chat_outcome E data session)
    as [(-> & _) | (cond & Hs & Hh & Hst & _)]; [now left |].
  right. eexists. rewrite Hh, Hs. unfold add_to_history.
  cbn [get_history get_or]. repeat split. assumption.
Qed.

(** A message that is missing, empty or white space only gets the
    clarification reply, and the session is left as it was. *)
Theorem chat_empty_input (E : Env) (data : Payload) (session : Session) :
  all_space (get_or (message data) "") = true ->
  chat E data session =
  (EmptyInput,
   {| reply := "Please type your symptoms or question.";
      disclaimer := DISCLAIMER; history := None; candidates := None;
      status := 200 |},
   session).
Proof.
  intros H. unfold chat.
  assert (Hs : strip (get_or (message data) "") = ""%string).
  { unfold strip. generalize dependent (get_or (message data) "").
    induction s as [|c s IH]; [reflexivity |]. simpl.
    intros H. apply andb_true_iff in H as [Hc Hs]. rewrite Hc. now apply IH. }
  now rewrite Hs.
Qed.

Lemma chat_empty_input_witness :
  chat example_env {| message := Some "   "%string; symptom_mode := true |}
       (Some example_history) =
  (EmptyInput,
   {| reply := "Please type your symptoms or question.";
      disclaimer := DISCLAIMER; history := None; candidates := None;
      status := 200 |},
   Some example_history).
Proof.
  apply (chat_empty_input example_env
           {| message := Some "   "%string; symptom_mode := true |}
           (Some example_history)).
  reflexivity.
Defined.

(** ** Precautions *)

Lemma dict_in_get {V : Type} (key : string) (d : list (string * V)) :
  dict_in key d = true <-> exists v, dict_get key d = Some v.
Proof.
  unfold dict_in, dict_get. induction d as [|[k v] d IH]; simpl.
  - split; [discriminate | intros [v H]; discriminate].
  - destruct (String.eqb k key); simpl.
    + split; [intros _; now exists v | reflexivity].
    + exact IH.
Qed.

Lemma dict_in_keys {V : Type} (key : string) (d : list (string * V)) :
  dict_in key d = true <-> In key (dict_keys d).
Proof.
  unfold dict_in, dict_keys. rewrite existsb_exists, in_map_iff.
  split; intros [[k v] [H1 H2]]; exists (k, v); simpl in *.
  - apply String.eqb_eq in H2. now split.
  - subst k. split; [assumption | apply String.eqb_refl].
Qed.

Lemma dict_get_none {V : Type} (key : string) (d : list (string * V)) :
  dict_get key d = None <-> dict_in key d = false.
Proof.
  destruct (dict_in key d) eqn:H.
  - apply dict_in_get in H as [v ->]. split; discriminate.
  - split; [reflexivity | intros _].
    destruct (dict_get key d) as [v|] eqn:Hg; [| reflexivity].
    assert (dict_in key d = true) by (apply dict_in_get; now exists v).
    congruence.
Qed.

(** C6, as the source has it. [get_precaution_text] puts ["- "] before
    each tip and joins the tips with line feeds; the tips have three
    cases. A non-empty key of [PRECAUTION_MAP]: its curated tips, then the
    first two generic tips. A non-empty key of the knowledge base that is
    not curated: the supportive-measures tip, the red-flag tip built from
    [when_to_seek_care] (["seek care if concerned."] when the entry has
    none), then the first generic tip. No key, an empty key or a key of
    neither table: the two tips of [NO_CONDITION_TIPS], then all generic
    tips. *)
Theorem precaution_cases (E : Env) :
  (forall key, get_precaution_text E key =
               join nl (map (fun t => ("- " ++ t)%string)
                            (precaution_tips E key))) /\
  (forall key curated,
      dict_get key PRECAUTION_MAP = Some curated ->
      precaution_tips E (Some key) =
      curated ++ firstn 2 GENERIC_PRECAUTIONS) /\
  (forall key info,
      truthy key = true ->
      dict_get key PRECAUTION_MAP = None ->
      dict_get key (MED_KB E) = Some info ->
      precaution_tips E (Some key) =
      [ "Follow general supportive measures (rest, fluids, symptom relief).";
        ("Watch for red flags: "
         ++ get_or (when_to_seek_care info) "seek care if concerned.")%string ]
      ++ firstn 1 GENERIC_PRECAUTIONS) /\
  (forall key,
      key = ""%string \/
      (dict_get key PRECAUTION_MAP = None /\ dict_get key (MED_KB E) = None) ->
      precaution_tips E (Some key) =
      NO_CONDITION_TIPS ++ GENERIC_PRECAUTIONS) /\
  precaution_tips E None = NO_CONDITION_TIPS ++ GENERIC_PRECAUTIONS.
Proof.
  repeat split.
  - intros key curated Hc. unfold precaution_tips.
    assert (Hin : dict_in key PRECAUTION_MAP = true)
      by (apply dict_in_get; now exists curated).
    assert (Ht : truthy key = true).
    { apply dict_in_keys in Hin. simpl in Hin.
      repeat (destruct Hin as [<- | Hin]; [reflexivity |]). contradiction. }
    now rewrite Ht, Hin, Hc.
  - intros key info Ht Hp Hk. unfold precaution_tips.
    apply dict_get_none in Hp. rewrite Ht, Hp. cbn [andb].
    assert (Hin : dict_in key (MED_KB E) = true)
      by (apply dict_in_get; now exists info).
    now rewrite Hin, Hk.
  - intros key [-> | [Hp Hk]]; unfold precaution_tips.
    + reflexivity.
    + apply dict_get_none in Hp. apply dict_get_none in Hk.
      now rewrite Hp, Hk, !andb_false_r.
Qed.

(** C6, as the claim words its third case: the answer without a key is
    not one tip followed by the generic tips, it has two tips in front. *)
Lemma precaution_no_key_counterexample :
  precaution_tips example_env None =
  [ "Provide clear symptom list (e.g., 'fever, cough, sore throat') so I can suggest likely conditions.";
    "In the meantime: stay hydrated, rest, avoid self-prescribed antibiotics, monitor red-flag signs." ]
  ++ GENERIC_PRECAUTIONS /\
  length (precaution_tips example_env None)
  = 2 + length GENERIC_PRECAUTIONS /\
  forall tip,
    precaution_tips example_env None <> tip :: GENERIC_PRECAUTIONS.
Proof.
  repeat split.
  intros tip H. apply (f_equal (@length string)) in H. discriminate.
Qed.

(** The three cases on the example knowledge base: a curated key, a key
    that is not curated, and an unknown key. *)
Example precaution_examples :
  precaution_tips example_env (Some "fever"%string)
  = get_or (dict_get "fever" PRECAUTION_MAP) []
    ++ firstn 2 GENERIC_PRECAUTIONS /\
  precaution_tips example_env (Some "allergy"%string)
  = [ "Follow general supportive measures (rest, fluids, symptom relief).";
      "Watch for red flags: Swelling of the face or trouble breathing." ]%string
    ++ firstn 1 GENERIC_PRECAUTIONS /\
  precaution_tips example_env (Some "gout"%string)
  = NO_CONDITION_TIPS ++ GENERIC_PRECAUTIONS.
Proof. repeat split. Qed.

(** ** Medicines *)


Lemma truthy_append (s1 s2 : string) :
  truthy s1 = true -> truthy (s1 ++ s2) = true.
Proof. destruct s1; [discriminate | reflexivity]. Qed.




(** ** The keyword index *)

Lemma first_seen_set_model : set_model first_seen.
Proof.
  intros l. unfold first_seen. split.
  - apply NoDup_rev, NoDup_nodup.
  - intros x. now rewrite <- in_rev, nodup_In, <- in_rev.
Qed.

Lemma last_seen_first_set_model : set_model last_seen_first.
Proof.
  intros l. unfold last_seen_first. split.
  - apply NoDup_nodup.
  - intros x. now rewrite nodup_In, <- in_rev.
Qed.

Lemma truthy_neq (s : string) : truthy s = true <-> s <> ""%string.
Proof. destruct s; simpl; split; congruence. Qed.

(** [INDEX] keeps the keys of the knowledge base, in its order. *)
Lemma INDEX_keys (E : Env) : dict_keys (INDEX E) = dict_keys (MED_KB E).
Proof. unfold INDEX, dict_keys. rewrite map_map. reflexivity. Qed.

Lemma INDEX_in (E : Env) (key : string) (meta : IndexEntry) :
  In (key, meta) (INDEX E) <->
  exists item, In (key, item) (MED_KB E) /\ meta = index_entry E item.
Proof.
  unfold INDEX. rewrite in_map_iff. split.
  - intros [[k item] [H1 H2]]. simpl in H1. injection H1 as <- <-.
    now exists item.
  - intros [item [H1 ->]]. now exists (key, item).
Qed.

Lemma length_lower (s : string) : String.length (lower s) = String.length s.
Proof. induction s as [|c s IH]; simpl; [reflexivity | now rewrite IH]. Qed.

Lemma length_app_string (s1 s2 : string) :
  String.length (s1 ++ s2) = String.length s1 + String.length s2.
Proof. induction s1 as [|c s1 IH]; simpl; [reflexivity | now rewrite IH]. Qed.

(** The length of [sep.join(l)]: the parts, and a separator between two
    parts. *)
Lemma length_join (sep : string) (l : list string) :
  String.length (join sep l)
  = list_sum (map String.length l) + String.length sep * (length l - 1).
Proof.
  unfold join. induction l as [|x l IH]; [cbn; lia |].
  destruct l as [|y l].
  - cbn. lia.
  - change (String.concat sep (x :: y :: l))
      with (x ++ sep ++ String.concat sep (y :: l))%string.
    rewrite !length_app_string, IH.
    change (list_sum (map String.length (x :: y :: l)))
      with (String.length x + list_sum (map String.length (y :: l))).
    cbn [Datatypes.length]. rewrite !Nat.sub_succ, !Nat.sub_0_r. nia.
Qed.

Lemma filter_truthy_lengths (l : list string) :
  list_sum (map String.length (filter truthy l))
  = list_sum (map String.length l).
Proof.
  induction l as [|x l IH]; [reflexivity |]. cbn [filter].
  destruct x as [|c x]; cbn [truthy map]; [exact IH |].
  change (String.length (String c x)
          + list_sum (map String.length (filter truthy l))
          = String.length (String c x) + list_sum (map String.length l)).
  now rewrite IH.
Qed.

Lemma filter_truthy_all (l : list string) :
  ~ In ""%string l -> filter truthy l = l.
Proof.
  induction l as [|x l IH]; intros H; [reflexivity |]. cbn [filter].
  destruct x as [|c x]; [destruct H; now left |].
  cbn [truthy]. rewrite IH; [reflexivity |]. intros Hin. apply H. now right.
Qed.

(** A set that holds the empty string loses one element when the empty
    strings are taken out. *)
Lemma filter_truthy_count (l : list string) :
  NoDup l -> In ""%string l -> S (length (filter truthy l)) = length l.
Proof.
  induction l as [|x l IH]; intros Hnd Hin; [destruct Hin |].
  inversion Hnd as [|? ? Hx Hl]; subst. cbn [filter].
  destruct x as [|c x].
  - cbn [truthy Datatypes.length]. now rewrite filter_truthy_all.
  - cbn [truthy Datatypes.length]. rewrite IH; [reflexivity | assumption |].
    destruct Hin as [H | H]; [discriminate | assumption].
Qed.

(** The length of the string the fuzzy tier compares: the title, every
    stored keyword, and one space for each keyword. *)
Lemma length_combined (meta : IndexEntry) :
  keywords meta <> [] ->
  String.length (combined meta)
  = String.length (idx_title meta)
    + list_sum (map String.length (keywords meta)) + length (keywords meta).
Proof.
  intros Hne. unfold combined.
  rewrite !length_app_string, length_lower, length_join.
  destruct (keywords meta); [now destruct Hne |]. cbn. lia.
Qed.

(** C8, as the source has it. The keyword set stored in [INDEX] for an
    entry holds the lowercased title (the empty string when the entry has
    no title) and the lowercased symptom phrases, each once, and nothing
    else; empty strings are not taken out of it. Two of its three readers
    take them out: the set [kw_set] of [symptom_checker] holds the
    non-empty keywords only, and the keyword loop of
    [find_condition_simple] fires only on a non-empty keyword. The third
    does not: the fuzzy tier scores the entry on the string [combined],
    which joins every stored keyword, so that an empty keyword beside
    another one makes that string one separator longer than the string
    of the non-empty keywords. *)
Theorem keyword_index_contents (E : Env) (key : string)
    (item : ConditionEntry) :
  set_model (set_iter E) ->
  In (key, item) (MED_KB E) ->
  In (key, index_entry E item) (INDEX E) /\
  NoDup (keywords (index_entry E item)) /\
  (forall kw,
      In kw (keywords (index_entry E item)) <->
      kw = lower (get_or (title item) "") \/
      exists s, In s (get_or (symptoms item) []) /\ kw = lower s) /\
  (forall kw,
      In kw (kw_set_of E (index_entry E item)) <->
      In kw (keywords (index_entry E item)) /\ kw <> ""%string) /\
  (forall t,
      existsb (fun kw => truthy kw && str_in kw t)
              (keywords (index_entry E item)) = true <->
      exists kw, In kw (keywords (index_entry E item)) /\
                 kw <> ""%string /\ str_in kw t = true) /\
  (forall t,
      In (key, difflib.ratio t (combined (index_entry E item)))
         (fuzzy_scores E t)) /\
  String.length (combined (index_entry E item))
  = String.length (get_or (title item) "")
    + list_sum (map String.length (keywords (index_entry E item)))
    + length (keywords (index_entry E item)) /\
  (In ""%string (keywords (index_entry E item)) ->
   2 <= length (keywords (index_entry E item)) ->
   String.length (combined (index_entry E item))
   = S (String.length
          (lower (get_or (title item) "") ++ " "
           ++ join " " (filter truthy (keywords (index_entry E item)))))).
Proof.
  intros Hset Hin.
  assert (Hne : keywords (index_entry E item) <> []).
  { intros H. cbn [index_entry keywords] in H.
    assert (Ht : In (lower (get_or (title item) ""))
                    (set_iter E ([lower (get_or (title item) "")]
                                 ++ map lower (get_or (symptoms item) []))))
      by (apply (proj2 (Hset _)); now left).
    rewrite H in Ht. destruct Ht. }
  split; [| split; [| split; [| split; [| split; [| split; [| split]]]]]].
  - apply INDEX_in. now exists item.
  - apply Hset.
  - intros kw. cbn [index_entry keywords].
    rewrite (proj2 (Hset _)). cbn [app In]. rewrite in_map_iff.
    split.
    + intros [<- | [s [<- Hs]]]; [now left | right; now exists s].
    + intros [-> | [s [Hs ->]]]; [now left | right; now exists s].
  - intros kw. unfold kw_set_of.
    rewrite (proj2 (Hset _)), filter_In, truthy_neq. reflexivity.
  - intros t. rewrite existsb_exists. split.
    + intros [kw [Hkw H]]. apply andb_true_iff in H as [Ht Hs].
      exists kw. repeat split; try assumption. now apply truthy_neq.
    + intros [kw [Hkw [Hkne Hs]]]. exists kw. split; [assumption |].
      apply andb_true_iff. split; [now apply truthy_neq | assumption].
  - intros t. unfold fuzzy_scores, INDEX. rewrite map_map. cbn [fst snd].
    apply in_map_iff. now exists (key, item).
  - now rewrite (length_combined _ Hne).
  - intros Hempty Hlen. rewrite (length_combined _ Hne).
    rewrite !length_app_string, length_lower, length_join,
      filter_truthy_lengths.
    pose proof (filter_truthy_count _ (proj1 (Hset _)) Hempty) as Hcount.
    cbn [index_entry keywords idx_title] in *. cbn [String.length]. lia.
Qed.

(** The theorem at the entry of the example knowledge base that has no
    title and an empty symptom phrase. *)
Lemma keyword_index_contents_witness :
  In ("allergy"%string,
      index_entry example_env allergy_entry)
     (INDEX example_env) /\
  NoDup (keywords (index_entry example_env allergy_entry)) /\
  (forall kw,
      In kw (keywords (index_entry example_env allergy_entry)) <->
      kw = lower (get_or (title allergy_entry) "") \/
      exists s, In s (get_or (symptoms allergy_entry) []) /\ kw = lower s) /\
  (forall kw,
      In kw (kw_set_of example_env (index_entry example_env allergy_entry)) <->
      In kw (keywords (index_entry example_env allergy_entry)) /\
      kw <> ""%string) /\
  (forall t,
      existsb (fun kw => truthy kw && str_in kw t)
              (keywords (index_entry example_env allergy_entry))
      = true <->
      exists kw, In kw (keywords (index_entry example_env allergy_entry)) /\
                 kw <> ""%string /\ str_in kw t = true) /\
  (forall t,
      In ("allergy"%string,
          difflib.ratio t (combined (index_entry example_env allergy_entry)))
         (fuzzy_scores example_env t)) /\
  String.length (combined (index_entry example_env allergy_entry))
  = String.length (get_or (title allergy_entry) "")
    + list_sum (map String.length
                    (keywords (index_entry example_env allergy_entry)))
    + length (keywords (index_entry example_env allergy_entry)) /\
  (In ""%string (keywords (index_entry example_env allergy_entry)) ->
   2 <= length (keywords (index_entry example_env allergy_entry)) ->
   String.length (combined (index_entry example_env allergy_entry))
   = S (String.length
          (lower (get_or (title allergy_entry) "") ++ " "
           ++ join " " (filter truthy
                          (keywords (index_entry example_env
                                       allergy_entry)))))).
Proof.
  apply (keyword_index_contents example_env "allergy").
  - exact first_seen_set_model.
  - simpl. right. right. now left.
Defined.

(** One empty symptom phrase changes the answer of the fuzzy tier: the
    same entry and the same message, the ratio 18/40 without the empty
    phrase and 18/41 with it, on the two sides of the threshold. *)
Example empty_keyword_changes_fuzzy_answer :
  combined (index_entry (hay_fever_env ["itchy eyes"])
              {| title := Some "Allergy"; symptoms := Some ["itchy eyes"];
                 description := None; when_to_seek_care := None |})
  = "allergy allergy itchy eyes"%string /\
  combined (index_entry (hay_fever_env ["itchy eyes"; ""])
              {| title := Some "Allergy"; symptoms := Some ["itchy eyes"; ""];
                 description := None; when_to_seek_care := None |})
  = "allergy allergy itchy eyes "%string /\
  kw_set_of (hay_fever_env ["itchy eyes"; ""])
            (index_entry (hay_fever_env ["itchy eyes"; ""])
               {| title := Some "Allergy"; symptoms := Some ["itchy eyes"; ""];
                  description := None; when_to_seek_care := None |})
  = ["allergy"; "itchy eyes"]%string /\
  find_condition_simple (hay_fever_env ["itchy eyes"]) "itchy eyeqqqqq"
  = (Some "hay_fever"%string, (18 # 40)%Q) /\
  find_condition_simple (hay_fever_env ["itchy eyes"; ""]) "itchy eyeqqqqq"
  = (None, 0%Q).
Proof. vm_compute. repeat split. Qed.

(** C8, as the claim words it: the keyword set stored for the entry
    without a title holds the empty string (twice over: as the lowercased
    default title and as a lowercased symptom phrase). *)
Lemma keyword_index_counterexample :
  set_model (set_iter example_env) /\
  dict_get "allergy" (INDEX example_env)
  = Some {| idx_title := ""; keywords := [""; "itchy eyes"]%string |} /\
  In ""%string [""; "itchy eyes"]%string /\
  exists key meta kw,
    In (key, meta) (INDEX example_env) /\ In kw (keywords meta) /\
    kw = ""%string.
Proof.
  split; [exact first_seen_set_model |].
  split; [reflexivity |]. split; [now left |].
  exists "allergy"%string,
         {| idx_title := ""; keywords := [""; "itchy eyes"]%string |},
         ""%string.
  split; [| split; [now left | reflexivity]].
  simpl. right. right. now left.
Qed.

(** ** The symptom checker *)

Lemma Zpos_of_nat (n : nat) : 0 < n -> Z.pos (Pos.of_nat n) = Z.of_nat n.
Proof.
  intros H. destruct n as [|n]; [lia |].
  rewrite <- Pos.of_nat_succ, Zpos_P_of_succ_nat. lia.
Qed.

Lemma fold_hits (f : string -> bool) (l : list string) (acc : nat) :
  fold_left (fun hits s => if f s then hits + 1 else hits) l acc
  = acc + length (filter f l).
Proof.
  revert acc. induction l as [|s l IH]; intros acc; simpl; [lia |].
  rewrite IH. destruct (f s); simpl; lia.
Qed.

(** [hits] is the number of phrases that contain some keyword. *)
Lemma count_hits_filter (kw_set symptoms_list : list string) :
  count_hits kw_set symptoms_list =
  length (filter (fun s => existsb (fun kw => str_in kw s) kw_set)
                 symptoms_list).
Proof. unfold count_hits. now rewrite fold_hits. Qed.

Lemma count_hits_le (kw_set symptoms_list : list string) :
  count_hits kw_set symptoms_list <= length symptoms_list.
Proof. rewrite count_hits_filter. apply filter_length_le. Qed.

Lemma count_hits_all (kw_set symptoms_list : list string) :
  (forall s, In s symptoms_list ->
             exists kw, In kw kw_set /\ str_in kw s = true) ->
  count_hits kw_set symptoms_list = length symptoms_list.
Proof.
  intros H. rewrite count_hits_filter.
  induction symptoms_list as [|s l IH]; [reflexivity |]. simpl.
  assert (Hs : existsb (fun kw => str_in kw s) kw_set = true).
  { apply existsb_exists. apply H. now left. }
  rewrite Hs. simpl. f_equal. apply IH. intros s' Hs'. apply H. now right.
Qed.

Lemma symptom_scores_in (E : Env) (symptoms_list : list string)
    (key : string) (score : Q) :
  In (key, score) (symptom_scores E symptoms_list) <->
  exists meta,
    In (key, meta) (INDEX E) /\ kw_set_of E meta <> [] /\
    score = symptom_score (kw_set_of E meta) symptoms_list.
Proof.
  unfold symptom_scores. rewrite in_flat_map. split.
  - intros [[k meta] [Hin H]]. cbn [fst snd] in H.
    destruct (kw_set_of E meta) as [|kw kws] eqn:Hkw; [contradiction |].
    destruct H as [H | []]. injection H as <- <-.
    exists meta. rewrite Hkw. repeat split; [assumption | discriminate].
  - intros [meta [Hin [Hne ->]]]. exists (key, meta).
    split; [assumption |]. cbn [fst snd].
    destruct (kw_set_of E meta); [contradiction | now left].
Qed.

(** C2, as the source has it. The score of a condition with a non-empty
    keyword set is [hits / len(kw_set)], where [hits] counts the phrases
    that contain some keyword. It is at least 0 and at most the number of
    phrases divided by the number of keywords, so it lies in [0,1] when
    the list has no more phrases than the condition has keywords; and it
    is exactly 1 for a list of as many phrases as there are keywords, each
    of which contains a keyword (the keywords themselves, once each, are
    such a list). *)
Theorem symptom_score_bounds (E : Env) (symptoms_list : list string)
    (key : string) (score : Q) :
  In (key, score) (symptom_scores E symptoms_list) ->
  exists meta,
    In (key, meta) (INDEX E) /\
    kw_set_of E meta <> [] /\
    score = Z.of_nat (count_hits (kw_set_of E meta) symptoms_list)
            # Pos.of_nat (length (kw_set_of E meta)) /\
    count_hits (kw_set_of E meta) symptoms_list <= length symptoms_list /\
    (0 <= score)%Q /\
    (score <= Z.of_nat (length symptoms_list)
              # Pos.of_nat (length (kw_set_of E meta)))%Q /\
    (length symptoms_list <= length (kw_set_of E meta) -> (score <= 1)%Q) /\
    (length symptoms_list = length (kw_set_of E meta) ->
     (forall s, In s symptoms_list ->
                exists kw, In kw (kw_set_of E meta) /\ str_in kw s = true) ->
     (score == 1)%Q) /\
    (symptoms_list = kw_set_of E meta -> (score == 1)%Q).
Proof.
  intros Hin. apply symptom_scores_in in Hin as (meta & Hmeta & Hne & ->).
  exists meta.
  pose proof (count_hits_le (kw_set_of E meta) symptoms_list) as Hle.
  assert (Hlen : 0 < length (kw_set_of E meta))
    by (destruct (kw_set_of E meta); [contradiction | simpl; lia]).
  assert (Hmax : Nat.max 1 (length (kw_set_of E meta))
                 = length (kw_set_of E meta)) by lia.
  unfold symptom_score. rewrite Hmax.
  assert (Hone : forall hits,
             hits = length (kw_set_of E meta) ->
             (Z.of_nat hits # Pos.of_nat (length (kw_set_of E meta)) == 1)%Q).
  { intros hits ->. unfold Qeq. simpl. rewrite Zpos_of_nat by assumption.
    lia. }
  repeat split; try assumption.
  - unfold Qle. simpl. lia.
  - unfold Qle. simpl. nia.
  - intros Hn. unfold Qle. simpl. rewrite Zpos_of_nat by assumption. lia.
  - intros Hn Hall. apply Hone. rewrite <- Hn. now apply count_hits_all.
  - intros Heq. apply Hone. rewrite Heq. apply count_hits_all.
    intros s Hs. exists s. split; [assumption | apply str_in_refl].
Qed.

(** The theorem at the example knowledge base and a list of four phrases,
    three of them hits for [fever]. *)
Lemma symptom_score_bounds_witness :
  exists meta,
    In ("fever"%string, meta) (INDEX example_env) /\
    kw_set_of example_env meta <> [] /\
    (3 # 4)%Q
    = Z.of_nat (count_hits (kw_set_of example_env meta)
                  ["high fever"; "chills"; "cough"; "sweating a lot"]%string)
      # Pos.of_nat (length (kw_set_of example_env meta)) /\
    count_hits (kw_set_of example_env meta)
      ["high fever"; "chills"; "cough"; "sweating a lot"]%string
    <= length ["high fever"; "chills"; "cough"; "sweating a lot"]%string /\
    (0 <= 3 # 4)%Q /\
    (3 # 4 <= Z.of_nat
                (length ["high fever"; "chills"; "cough"; "sweating a lot"]%string)
              # Pos.of_nat (length (kw_set_of example_env meta)))%Q /\
    (length ["high fever"; "chills"; "cough"; "sweating a lot"]%string
     <= length (kw_set_of example_env meta) -> (3 # 4 <= 1)%Q) /\
    (length ["high fever"; "chills"; "cough"; "sweating a lot"]%string
     = length (kw_set_of example_env meta) ->
     (forall s, In s ["high fever"; "chills"; "cough"; "sweating a lot"]%string ->
                exists kw, In kw (kw_set_of example_env meta) /\
                           str_in kw s = true) ->
     (3 # 4 == 1)%Q) /\
    (["high fever"; "chills"; "cough"; "sweating a lot"]%string
     = kw_set_of example_env meta -> (3 # 4 == 1)%Q).
Proof.
  apply (symptom_score_bounds example_env
           ["high fever"; "chills"; "cough"; "sweating a lot"]%string
           "fever"%string (3 # 4)%Q).
  vm_compute. now left.
Defined.

(** C2, as the claim words it. With one keyword and two phrases that both
    contain it the score is 2, outside [0,1], although the list covers
    every keyword; and one phrase that contains all four keywords of a
    condition scores 1/4, not 1. *)
Lemma symptom_score_counterexample :
  kw_set_of fever_only_env
    {| idx_title := "Fever"; keywords := ["fever"]%string |}
  = ["fever"]%string /\
  symptom_scores fever_only_env ["fever"; "high fever"]%string
  = [("fever"%string, (2 # 1)%Q)] /\
  symptom_checker fever_only_env ["fever"; "high fever"]%string 5
  = [("fever"%string, (2000 # 1000)%Q)] /\
  ~ (2 # 1 <= 1)%Q /\
  symptom_scores example_env ["fever high temperature chills sweating"]%string
  = [("fever"%string, (1 # 4)%Q); ("common_cold"%string, (0 # 4)%Q);
     ("allergy"%string, (0 # 1)%Q)] /\
  ~ (1 # 4 == 1)%Q.
Proof.
  split; [reflexivity |]. split; [reflexivity |].
  split; [vm_compute; reflexivity |]. split.
  { intros H. vm_compute in H. now apply H. }
  split; [reflexivity |].
  intros H. vm_compute in H. discriminate.
Qed.

(** ** The fuzzy tier *)

Lemma Qlt_bool_iff (x y : Q) : Qlt_bool x y = true <-> (x < y)%Q.
Proof.
  unfold Qlt_bool. rewrite negb_true_iff. split.
  - intros H. apply Qnot_le_lt. intros Hle.
    apply Qle_bool_iff in Hle. congruence.
  - intros H. destruct (Qle_bool y x) eqn:Hb; [| reflexivity].
    apply Qle_bool_iff in Hb. exfalso. exact (Qlt_not_le _ _ H Hb).
Qed.

Lemma Qlt_bool_false (x y : Q) : Qlt_bool x y = false <-> (y <= x)%Q.
Proof.
  unfold Qlt_bool. rewrite negb_false_iff. apply Qle_bool_iff.
Qed.

(** The stable descending sort puts the first greatest element in
    front. *)
Lemma sort_desc_head (l : list (string * Q)) :
  match sort_desc l with
  | [] => l = []
  | p :: _ => first_max l p
  end.
Proof.
  induction l as [|x l IH]; [reflexivity |].
  cbn [sort_desc fold_right]. fold (sort_desc l).
  destruct (sort_desc l) as [|p rest].
  - subst l. exists [], []. repeat split; intros y [].
  - destruct IH as (pre & post & -> & Hpre & Hpost).
    cbn [insert_desc]. destruct (Qlt_bool (snd x) (snd p)) eqn:Hlt.
    + apply Qlt_bool_iff in Hlt. exists (x :: pre), post.
      repeat split; [| assumption].
      intros y [<- | Hy]; [assumption | now apply Hpre].
    + apply Qlt_bool_false in Hlt. exists [], (pre ++ p :: post).
      repeat split; [intros y [] |].
      intros y Hy. apply in_app_or in Hy as [Hy | [<- | Hy]].
      * apply Qlt_le_weak. eapply Qlt_le_trans; [now apply Hpre | assumption].
      * assumption.
      * eapply Qle_trans; [now apply Hpost | assumption].
Qed.

(** The scores of the fuzzy tier follow the knowledge base, key by key. *)
Lemma fuzzy_scores_keys (E : Env) (t : string) :
  map fst (fuzzy_scores E t) = dict_keys (MED_KB E).
Proof.
  unfold fuzzy_scores. rewrite map_map. cbn [fst]. apply INDEX_keys.
Qed.

(** C3. When neither the key loop nor the keyword loop answers,
    [find_condition_simple] takes the first condition, in the order of the
    knowledge base, whose similarity ratio is the greatest. It returns that
    condition with its ratio when the ratio is at least 0.45, the value
    0.45 included, and [(None, 0.0)] when the ratio is below 0.45 or the
    knowledge base is empty. *)
Theorem fuzzy_tier_threshold (E : Env) (msg : string) :
  direct_key E (lower msg) = None ->
  keyword_match E (lower msg) = None ->
  map fst (fuzzy_scores E (lower msg)) = dict_keys (MED_KB E) /\
  (fuzzy_scores E (lower msg) = [] ->
   find_condition_simple E msg = (None, 0%Q)) /\
  (fuzzy_scores E (lower msg) <> [] ->
   exists pre key score post,
     fuzzy_scores E (lower msg) = pre ++ (key, score) :: post /\
     (forall x, In x pre -> (snd x < score)%Q) /\
     (forall x, In x post -> (snd x <= score)%Q) /\
     ((45 # 100 <= score)%Q ->
      find_condition_simple E msg = (Some key, score)) /\
     ((score < 45 # 100)%Q ->
      find_condition_simple E msg = (None, 0%Q))).
Proof.
  intros H1 H2. split; [apply fuzzy_scores_keys |].
  unfold find_condition_simple. rewrite H1, H2. unfold fuzzy_fallback.
  pose proof (sort_desc_head (fuzzy_scores E (lower msg))) as Hhead.
  destruct (sort_desc (fuzzy_scores E (lower msg))) as [|[key score] rest].
  - split; [reflexivity | intros Hne; contradiction].
  - split.
    + intros Hnil. destruct Hhead as (pre & post & Heq & _).
      rewrite Hnil in Heq. now destruct pre.
    + intros _. destruct Hhead as (pre & post & Heq & Hpre & Hpost).
      exists pre, key, score, post. cbn [snd] in *.
      repeat split; try assumption.
      * intros Hge. apply Qle_bool_iff in Hge. now rewrite Hge.
      * intros Hlt. destruct (Qle_bool (45 # 100) score) eqn:Hb;
          [| reflexivity].
        apply Qle_bool_iff in Hb. exfalso. exact (Qlt_not_le _ _ Hlt Hb).
Qed.

(** The theorem at a message that no key and no keyword of the example
    knowledge base occurs in. *)
Lemma fuzzy_tier_threshold_witness :
  map fst (fuzzy_scores example_env (lower "Cough runny sneeze sweaty"))
  = dict_keys (MED_KB example_env) /\
  (fuzzy_scores example_env (lower "Cough runny sneeze sweaty") = [] ->
   find_condition_simple example_env "Cough runny sneeze sweaty"
   = (None, 0%Q)) /\
  (fuzzy_scores example_env (lower "Cough runny sneeze sweaty") <> [] ->
   exists pre key score post,
     fuzzy_scores example_env (lower "Cough runny sneeze sweaty")
     = pre ++ (key, score) :: post /\
     (forall x, In x pre -> (snd x < score)%Q) /\
     (forall x, In x post -> (snd x <= score)%Q) /\
     ((45 # 100 <= score)%Q ->
      find_condition_simple example_env "Cough runny sneeze sweaty"
      = (Some key, score)) /\
     ((score < 45 # 100)%Q ->
      find_condition_simple example_env "Cough runny sneeze sweaty"
      = (None, 0%Q))).
Proof.
  apply (fuzzy_tier_threshold example_env "Cough runny sneeze sweaty");
    vm_compute; reflexivity.
Defined.

(** The boundary on the example knowledge base. The ratios of the first
    message are 26/69, 36/80 and 10/37: the greatest is exactly 0.45 and is
    accepted. One more character gives 26/70, 36/81 and 10/38, all below
    0.45, and no condition. *)
Example fuzzy_boundary_accepted :
  fuzzy_scores example_env "cough runny sneeze sweaty"
  = [ ("fever"%string, (26 # 69)%Q); ("common_cold"%string, (36 # 80)%Q);
      ("allergy"%string, (10 # 37)%Q) ] /\
  (36 # 80 == 45 # 100)%Q /\
  find_condition_simple example_env "cough runny sneeze sweaty"
  = (Some "common_cold"%string, (36 # 80)%Q).
Proof. repeat split; vm_compute; reflexivity. Qed.

Example fuzzy_boundary_rejected :
  fuzzy_scores example_env "cough runny sneeze sweaty!"
  = [ ("fever"%string, (26 # 70)%Q); ("common_cold"%string, (36 # 81)%Q);
      ("allergy"%string, (10 # 38)%Q) ] /\
  (36 # 81 < 45 # 100)%Q /\
  find_condition_simple example_env "cough runny sneeze sweaty!"
  = (None, 0%Q).
Proof. repeat split; vm_compute; reflexivity. Qed.

(** The same two tests on doubles, as Python runs them: the message of
    [fuzzy_boundary_accepted] and the vocabulary of [common_cold] have 18
    matching characters out of 80, and out of 81 with one more character.
    The double [2.0 * 18 / 80] is the double of the literal [0.45]. *)
Example fuzzy_boundary_on_doubles :
  difflib.calculate_ratio 18 80 = (36 # 80)%Q /\
  difflib.calculate_ratio 18 81 = (36 # 81)%Q /\
  PrimFloat.leb THRESHOLD_DOUBLE (difflib.calculate_ratio_double 18 80)
  = true /\
  PrimFloat.eqb THRESHOLD_DOUBLE (difflib.calculate_ratio_double 18 80)
  = true /\
  PrimFloat.leb THRESHOLD_DOUBLE (difflib.calculate_ratio_double 18 81)
  = false.
Proof. repeat split; vm_compute; reflexivity. Qed.

(** A tie at the greatest ratio goes to the earlier condition. *)
Example sort_desc_tie :
  sort_desc [ ("a"%string, (1 # 2)%Q); ("b"%string, (3 # 4)%Q);
              ("c"%string, (6 # 8)%Q); ("d"%string, (2 # 4)%Q) ]
  = [ ("b"%string, (3 # 4)%Q); ("c"%string, (6 # 8)%Q);
      ("a"%string, (1 # 2)%Q); ("d"%string, (2 # 4)%Q) ].
Proof. reflexivity. Qed.

(** ** The similarity ratio lies between 0 and 1 *)

Section MatcherFacts.

Variables a b : list ascii.

Lemma nth_tl (n : nat) (l : list nat) : nth n (tl l) 0 = nth (S n) l 0.
Proof. destruct l; [now destruct n | reflexivity]. Qed.

Lemma scan_row_range (ai : ascii) (i alo ahi blo bhi : nat) :
  alo <= i -> i < ahi ->
  forall bs j prev old best row best',
    prev <= i - alo -> prev <= j - blo ->
    (forall n, nth n old 0 <= i - alo /\ nth n old 0 <= j + n + 1 - blo) ->
    in_range alo ahi blo bhi best ->
    difflib.scan_row b ai i blo bhi j bs prev old best = (row, best') ->
    (forall n, nth n row 0 <= i + 1 - alo /\ nth n row 0 <= j + n + 1 - blo)
    /\ in_range alo ahi blo bhi best'.
Proof.
  intros Hi Hahi.
  induction bs as [|bj bs IH]; intros j prev old best row best'
    Hp1 Hp2 Hold Hbest Hscan.
  - simpl in Hscan. injection Hscan as <- <-. split; [| assumption].
    intros n. destruct n; simpl; lia.
  - cbn [difflib.scan_row] in Hscan.
    assert (Hhd1 : hd 0 old <= i - alo /\ hd 0 old <= S j - blo).
    { specialize (Hold 0). destruct old; cbn [hd nth] in *; lia. }
    assert (Htl : forall n, nth n (tl old) 0 <= i - alo /\
                            nth n (tl old) 0 <= S j + n + 1 - blo).
    { intros n. rewrite nth_tl. specialize (Hold (S n)). lia. }
    destruct (Ascii.eqb ai bj && negb (difflib.popular b bj)
              && (blo <=? j) && (j <? bhi)) eqn:Hc.
    + apply andb_true_iff in Hc as [Hc Hj2].
      apply andb_true_iff in Hc as [_ Hj1].
      apply Nat.leb_le in Hj1. apply Nat.ltb_lt in Hj2.
      destruct (difflib.scan_row b ai i blo bhi (S j) bs (hd 0 old) (tl old) _)
        as [row0 r0] eqn:Hrec.
      injection Hscan as <- <-.
      assert (Hbest' : in_range alo ahi blo bhi
                (if difflib.size best <? prev + 1
                 then (i + 1 - (prev + 1), j + 1 - (prev + 1), prev + 1)
                 else best)).
      { destruct (difflib.size best <? prev + 1); [| assumption].
        unfold in_range, difflib.size. cbn [fst snd]. lia. }
      destruct (IH _ _ _ _ _ _ (proj1 Hhd1) (proj2 Hhd1) Htl Hbest' Hrec)
        as [Hrow Hr].
      split; [| assumption].
      intros [|n]; cbn [nth]; [lia |]. specialize (Hrow n). lia.
    + destruct (difflib.scan_row b ai i blo bhi (S j) bs (hd 0 old) (tl old) _)
        as [row0 r0] eqn:Hrec.
      injection Hscan as <- <-.
      destruct (IH _ _ _ _ _ _ (proj1 Hhd1) (proj2 Hhd1) Htl Hbest Hrec)
        as [Hrow Hr].
      split; [| assumption].
      intros [|n]; cbn [nth]; [lia |]. specialize (Hrow n). lia.
Qed.

Lemma scan_rows_range (alo ahi blo bhi : nat) :
  forall n i j2len best,
    alo <= i -> i + n <= ahi ->
    (forall m, nth m j2len 0 <= i - alo /\ nth m j2len 0 <= m + 1 - blo) ->
    in_range alo ahi blo bhi best ->
    in_range alo ahi blo bhi (difflib.scan_rows a b blo bhi i n j2len best).
Proof.
  induction n as [|n IH]; intros i j2len best Hi Hn Hrow Hbest;
    [assumption |].
  cbn [difflib.scan_rows].
  destruct (difflib.scan_row b (difflib.char_at a i) i blo bhi 0 b 0 j2len best)
    as [row best'] eqn:Hscan.
  assert (Hlt : i < ahi) by lia.
  destruct (scan_row_range (difflib.char_at a i) i alo ahi blo bhi Hi Hlt
              b 0 0 j2len best row best' (Nat.le_0_l _) (Nat.le_0_l _)
              Hrow Hbest Hscan)
    as [Hrow' Hbest'].
  apply IH; [lia | lia | | assumption].
  intros m. specialize (Hrow' m). split; [lia |]. simpl in Hrow'. lia.
Qed.

Lemma extend_left_range (alo ahi blo bhi : nat) :
  forall besti bestj bestsize,
    in_range alo ahi blo bhi (besti, bestj, bestsize) ->
    in_range alo ahi blo bhi
      (difflib.extend_left a b alo blo besti bestj bestsize).
Proof.
  induction besti as [|i IH]; intros bestj bestsize H; [assumption |].
  destruct bestj as [|j]; [assumption |].
  cbn [difflib.extend_left].
  destruct ((alo <? S i) && (blo <? S j)
            && Ascii.eqb (difflib.char_at a i) (difflib.char_at b j)) eqn:Hc;
    [| assumption].
  apply andb_true_iff in Hc as [Hc _].
  apply andb_true_iff in Hc as [H1 H2].
  apply Nat.ltb_lt in H1. apply Nat.ltb_lt in H2.
  apply IH. unfold in_range, difflib.size in *. cbn [fst snd] in *. lia.
Qed.

Lemma extend_right_range (alo ahi blo bhi besti bestj : nat) :
  forall n bestsize,
    in_range alo ahi blo bhi (besti, bestj, bestsize) ->
    in_range alo ahi blo bhi
      (besti, bestj, difflib.extend_right a b ahi bhi besti bestj bestsize n).
Proof.
  induction n as [|n IH]; intros bestsize H; [assumption |].
  cbn [difflib.extend_right].
  destruct ((besti + bestsize <? ahi) && (bestj + bestsize <? bhi)
            && Ascii.eqb (difflib.char_at a (besti + bestsize))
                         (difflib.char_at b (bestj + bestsize))) eqn:Hc;
    [| assumption].
  apply andb_true_iff in Hc as [Hc _].
  apply andb_true_iff in Hc as [H1 H2].
  apply Nat.ltb_lt in H1. apply Nat.ltb_lt in H2.
  apply IH. unfold in_range, difflib.size in *. cbn [fst snd] in *. lia.
Qed.

(** The number of rounds given to [extend_right] is exact: when it is
    used up the loop test is false. *)
Lemma extend_right_stops (ahi bhi besti bestj : nat) :
  forall n bestsize,
    n = ahi - (besti + bestsize) ->
    let k := difflib.extend_right a b ahi bhi besti bestj bestsize n in
    (besti + k <? ahi) && (bestj + k <? bhi)
    && Ascii.eqb (difflib.char_at a (besti + k)) (difflib.char_at b (bestj + k))
    = false.
Proof.
  induction n as [|n IH]; intros bestsize Hn; cbn [difflib.extend_right].
  - cbv zeta. replace (besti + bestsize <? ahi) with false; [reflexivity |].
    symmetry. apply Nat.ltb_ge. lia.
  - destruct ((besti + bestsize <? ahi) && (bestj + bestsize <? bhi)
              && Ascii.eqb (difflib.char_at a (besti + bestsize))
                           (difflib.char_at b (bestj + bestsize))) eqn:Hc.
    + apply IH. lia.
    + exact Hc.
Qed.

(** [find_longest_match] answers inside the windows it is given. *)
Lemma find_longest_match_range (alo ahi blo bhi : nat) :
  alo <= ahi -> blo <= bhi ->
  in_range alo ahi blo bhi (difflib.find_longest_match a b alo ahi blo bhi).
Proof.
  intros Ha Hb. unfold difflib.find_longest_match.
  assert (H0 : in_range alo ahi blo bhi
                 (difflib.scan_rows a b blo bhi alo (ahi - alo) [] (alo, blo, 0))).
  { apply scan_rows_range; [lia | lia | |].
    - intros m. destruct m; simpl; lia.
    - unfold in_range, difflib.size. cbn [fst snd]. lia. }
  destruct (difflib.scan_rows a b blo bhi alo (ahi - alo) [] (alo, blo, 0))
    as [[i0 j0] k0].
  pose proof (extend_left_range alo ahi blo bhi _ _ _ H0) as H1.
  destruct (difflib.extend_left a b alo blo i0 j0 k0) as [[i1 j1] k1].
  now apply extend_right_range.
Qed.

Lemma sizes_app (l1 l2 : list difflib.Match) :
  sizes (l1 ++ l2) = sizes l1 + sizes l2.
Proof. unfold sizes. now rewrite map_app, list_sum_app. Qed.

Lemma sizes_snoc (l : list difflib.Match) (i j k : nat) :
  sizes (l ++ [(i, j, k)]) = sizes l + k.
Proof. rewrite sizes_app. unfold sizes. simpl. lia. Qed.

Lemma queue_cons (alo ahi blo bhi : nat) (q : list (nat * nat * nat * nat)) :
  queue_rounds ((alo, ahi, blo, bhi) :: q) = 2 * (ahi - alo) + 1 + queue_rounds q
  /\ queue_a ((alo, ahi, blo, bhi) :: q) = ahi - alo + queue_a q
  /\ queue_b ((alo, ahi, blo, bhi) :: q) = bhi - blo + queue_b q.
Proof. repeat split. Qed.

(** The loop of [get_matching_blocks] ends within the rounds counted by
    [queue_rounds], and the blocks it adds fit into the windows of the
    queue. *)
Lemma blocks_loop_total :
  forall fuel queue acc,
    Forall window_ok queue ->
    queue_rounds queue <= fuel ->
    exists blocks,
      difflib.blocks_loop a b fuel queue acc = Some blocks /\
      sizes blocks <= sizes acc + queue_a queue /\
      sizes blocks <= sizes acc + queue_b queue.
Proof.
  induction fuel as [|fuel IH]; intros queue acc Hok Hfuel.
  - destruct queue as [|[[[alo ahi] blo] bhi] queue].
    + exists acc. simpl. repeat split; lia.
    + destruct (queue_cons alo ahi blo bhi queue) as (Hq & _). lia.
  - destruct queue as [|[[[alo ahi] blo] bhi] queue].
    + exists acc. simpl. repeat split; lia.
    + cbn [difflib.blocks_loop].
      inversion Hok as [|w q Hw Hq]; subst.
      destruct Hw as [Ha Hb]. cbn [fst snd] in Ha, Hb.
      pose proof (find_longest_match_range alo ahi blo bhi Ha Hb) as Hr.
      destruct (difflib.find_longest_match a b alo ahi blo bhi)
        as [[i j] k].
      unfold in_range, difflib.size in Hr. cbn [fst snd] in Hr.
      destruct (queue_cons alo ahi blo bhi queue) as (Er & Ea & Eb).
      rewrite Er in Hfuel. rewrite Ea, Eb. clear Er Ea Eb.
      assert (Hwl : window_ok (alo, i, blo, j))
        by (unfold window_ok; cbn [fst snd]; lia).
      assert (Hwr : window_ok (i + k, ahi, j + k, bhi))
        by (unfold window_ok; cbn [fst snd]; lia).
      destruct (queue_cons alo i blo j queue) as (Lr & La & Lb).
      destruct (queue_cons (i + k) ahi (j + k) bhi queue) as (Rr & Ra & Rb).
      destruct (queue_cons (i + k) ahi (j + k) bhi ((alo, i, blo, j) :: queue))
        as (Br & Ba & Bb).
      destruct (k =? 0) eqn:Hk.
      * destruct (IH queue acc Hq) as (blocks & -> & H1 & H2); [lia |].
        exists blocks. repeat split; lia.
      * apply Nat.eqb_neq in Hk.
        destruct ((alo <? i) && (blo <? j)) eqn:Hl;
          destruct ((i + k <? ahi) && (j + k <? bhi)) eqn:Hrt.
        -- destruct (IH ((i + k, ahi, j + k, bhi) :: (alo, i, blo, j) :: queue)
                       (acc ++ [(i, j, k)])) as (blocks & -> & H1 & H2).
           ++ now repeat constructor.
           ++ lia.
           ++ exists blocks. rewrite sizes_snoc in H1, H2.
              repeat split; lia.
        -- destruct (IH ((alo, i, blo, j) :: queue)
                       (acc ++ [(i, j, k)])) as (blocks & -> & H1 & H2).
           ++ now repeat constructor.
           ++ lia.
           ++ exists blocks. rewrite sizes_snoc in H1, H2.
              repeat split; lia.
        -- destruct (IH ((i + k, ahi, j + k, bhi) :: queue)
                       (acc ++ [(i, j, k)])) as (blocks & -> & H1 & H2).
           ++ now repeat constructor.
           ++ lia.
           ++ exists blocks. rewrite sizes_snoc in H1, H2.
              repeat split; lia.
        -- destruct (IH queue (acc ++ [(i, j, k)]) Hq)
             as (blocks & -> & H1 & H2); [lia |].
           exists blocks. rewrite sizes_snoc in H1, H2.
           repeat split; lia.
Qed.

End MatcherFacts.

Lemma sizes_insert (x : difflib.Match) (l : list difflib.Match) :
  sizes (difflib.insert_match x l) = difflib.size x + sizes l.
Proof.
  induction l as [|y l IH]; [reflexivity |]. cbn [difflib.insert_match].
  destruct (difflib.match_lt x y); [reflexivity |].
  change (sizes (y :: difflib.insert_match x l))
    with (difflib.size y + sizes (difflib.insert_match x l)).
  rewrite IH. change (sizes (y :: l)) with (difflib.size y + sizes l). lia.
Qed.

(** Sorting the blocks and merging adjacent ones keeps the sum of their
    sizes. *)
Lemma sizes_sort (l : list difflib.Match) :
  sizes (difflib.sort_matches l) = sizes l.
Proof.
  induction l as [|x l IH]; [reflexivity |].
  cbn [difflib.sort_matches fold_right]. fold (difflib.sort_matches l).
  rewrite sizes_insert, IH. reflexivity.
Qed.

Lemma sizes_collapse (blocks : list difflib.Match) :
  forall cur non_adjacent,
    sizes (difflib.collapse cur blocks non_adjacent)
    = difflib.size cur + sizes blocks + sizes non_adjacent.
Proof.
  induction blocks as [|[[i2 j2] k2] rest IH];
    intros [[i1 j1] k1] non_adjacent; cbn [difflib.collapse].
  - destruct (k1 =? 0) eqn:Hk.
    + apply Nat.eqb_eq in Hk. subst k1. reflexivity.
    + rewrite sizes_snoc. unfold difflib.size, sizes. simpl. lia.
  - change (sizes ((i2, j2, k2) :: rest)) with (k2 + sizes rest).
    destruct ((i1 + k1 =? i2) && (j1 + k1 =? j2)).
    + rewrite IH. unfold difflib.size. cbn [snd]. lia.
    + rewrite IH. unfold difflib.size. cbn [snd].
      destruct (k1 =? 0) eqn:Hk.
      * apply Nat.eqb_eq in Hk. lia.
      * rewrite sizes_snoc. lia.
Qed.

(** [get_matching_blocks] always returns, and the characters it matches
    are no more than either string has. *)
Lemma get_matching_blocks_total (a b : list ascii) :
  exists blocks,
    difflib.get_matching_blocks a b = Some blocks /\
    sizes blocks <= length a /\ sizes blocks <= length b.
Proof.
  unfold difflib.get_matching_blocks.
  destruct (blocks_loop_total a b (2 * length a + 1)
              [(0, length a, 0, length b)] [])
    as (blocks & -> & H1 & H2).
  - repeat constructor; cbn [fst snd]; lia.
  - destruct (queue_cons 0 (length a) 0 (length b) []) as (-> & _).
    unfold queue_rounds. simpl. lia.
  - destruct (queue_cons 0 (length a) 0 (length b) []) as (_ & Ea & Eb).
    rewrite Ea in H1. rewrite Eb in H2.
    change (queue_a []) with 0 in H1. change (queue_b []) with 0 in H2.
    change (sizes []) with 0 in H1, H2.
    eexists. split; [reflexivity |].
    rewrite sizes_snoc, sizes_collapse, sizes_sort.
    change (sizes []) with 0. change (difflib.size (0, 0, 0)) with 0. lia.
Qed.

(** The ratio is a fraction between 0 and 1. *)
Theorem ratio_range (a b : string) :
  (0 <= difflib.ratio a b)%Q /\ (difflib.ratio a b <= 1)%Q.
Proof.
  unfold difflib.ratio.
  destruct (get_matching_blocks_total (list_ascii_of_string a)
              (list_ascii_of_string b)) as (blocks & -> & H1 & H2).
  fold (sizes blocks). unfold difflib.calculate_ratio.
  destruct (length (list_ascii_of_string a) + length (list_ascii_of_string b)
            =? 0) eqn:Hz.
  - split; unfold Qle; simpl; lia.
  - apply Nat.eqb_neq in Hz. split; unfold Qle; cbn [Qnum Qden].
    + lia.
    + rewrite Zpos_of_nat by lia. lia.
Qed.

(** ** The score of a match *)

Lemma fuzzy_scores_ratio (E : Env) (t key : string) (score : Q) :
  In (key, score) (fuzzy_scores E t) ->
  exists meta,
    In (key, meta) (INDEX E) /\ score = difflib.ratio t (combined meta).
Proof.
  unfold fuzzy_scores. rewrite in_map_iff.
  intros [[k meta] [H Hin]]. cbn [fst snd] in H. injection H as <- <-.
  now exists meta.
Qed.

(** What the fuzzy tier returns. *)
Lemma fuzzy_fallback_cases (E : Env) (t : string) :
  (exists key score,
      fuzzy_fallback E t = (Some key, score) /\
      first_max (fuzzy_scores E t) (key, score) /\
      (45 # 100 <= score)%Q /\ (score <= 1)%Q) \/
  fuzzy_fallback E t = (None, 0%Q).
Proof.
  unfold fuzzy_fallback.
  pose proof (sort_desc_head (fuzzy_scores E t)) as Hhead.
  destruct (sort_desc (fuzzy_scores E t)) as [|[key score] rest];
    [now right |].
  destruct (Qle_bool (45 # 100) score) eqn:Hb; [| now right].
  left. exists key, score. apply Qle_bool_iff in Hb.
  repeat split; try assumption.
  destruct Hhead as (pre & post & Heq & _).
  destruct (fuzzy_scores_ratio E t key score) as (meta & _ & ->).
  - rewrite Heq. apply in_or_app. right. now left.
  - apply ratio_range.
Qed.

(** C10. A condition returned by [find_condition_simple] comes with a
    score between 0.45 and 1.0: the key loop and the keyword loop return
    exactly 1.0, and the fuzzy tier returns a condition only with a ratio
    of at least 0.45, which is at most 1.0 as every ratio is. Without a
    condition the score is exactly 0.0. *)
Theorem find_condition_score_range (E : Env) (msg : string) :
  (forall key,
      direct_key E (lower msg) = Some key ->
      find_condition_simple E msg = (Some key, 1%Q)) /\
  (forall key,
      direct_key E (lower msg) = None ->
      keyword_match E (lower msg) = Some key ->
      find_condition_simple E msg = (Some key, 1%Q)) /\
  (direct_key E (lower msg) = None ->
   keyword_match E (lower msg) = None ->
   find_condition_simple E msg = fuzzy_fallback E (lower msg)) /\
  (forall key score,
      fuzzy_fallback E (lower msg) = (Some key, score) ->
      In (key, score) (fuzzy_scores E (lower msg)) /\
      (45 # 100 <= score)%Q /\ (score <= 1)%Q) /\
  (forall key score,
      find_condition_simple E msg = (Some key, score) ->
      (45 # 100 <= score)%Q /\ (score <= 1)%Q) /\
  (forall score,
      find_condition_simple E msg = (None, score) -> score = 0%Q).
Proof.
  assert (Hfuzzy : forall key score,
             fuzzy_fallback E (lower msg) = (Some key, score) ->
             In (key, score) (fuzzy_scores E (lower msg)) /\
             (45 # 100 <= score)%Q /\ (score <= 1)%Q).
  { intros key score H.
    destruct (fuzzy_fallback_cases E (lower msg))
      as [(k & s & Hk & (pre & post & Heq & _) & Hlo & Hhi) | Hnone].
    - rewrite Hk in H. injection H as <- <-. repeat split; try assumption.
      rewrite Heq. apply in_or_app. right. now left.
    - rewrite Hnone in H. discriminate. }
  unfold find_condition_simple.
  split; [| split; [| split; [| split; [| split]]]].
  - now intros key ->.
  - now intros key -> ->.
  - now intros -> ->.
  - exact Hfuzzy.
  - intros key score.
    destruct (direct_key E (lower msg)).
    { intros H. injection H as <- <-. split; unfold Qle; simpl; lia. }
    destruct (keyword_match E (lower msg)).
    { intros H. injection H as <- <-. split; unfold Qle; simpl; lia. }
    intros H. now destruct (Hfuzzy key score H).
  - intros score.
    destruct (direct_key E (lower msg)); [discriminate |].
    destruct (keyword_match E (lower msg)); [discriminate |].
    destruct (fuzzy_fallback_cases E (lower msg))
      as [(k & s & Hk & _) | Hnone].
    + rewrite Hk. discriminate.
    + rewrite Hnone. now intros [= <-].
Qed.

(** The three tiers on the example knowledge base. *)
Example find_condition_examples :
  find_condition_simple example_env "My FEVER is back"
  = (Some "fever"%string, 1%Q) /\
  find_condition_simple example_env "I keep sneezing"
  = (Some "common_cold"%string, 1%Q) /\
  find_condition_simple example_env "temperature i"
  = (Some "fever"%string, (26 # 57)%Q) /\
  find_condition_simple example_env "zzz" = (None, 0%Q).
Proof. repeat split; vm_compute; reflexivity. Qed.

(** ** What the matcher depends on *)

Lemma find_map {A B : Type} (f : B -> bool) (g : A -> B) (l : list A) :
  find f (map g l) = option_map g (find (fun x => f (g x)) l).
Proof.
  induction l as [|x l IH]; [reflexivity |]. simpl.
  destruct (f (g x)); [reflexivity | exact IH].
Qed.

Lemma existsb_same_elements {A : Type} (f : A -> bool) (l1 l2 : list A) :
  (forall x, In x l1 <-> In x l2) -> existsb f l1 = existsb f l2.
Proof.
  intros H. apply eq_true_iff_eq. rewrite !existsb_exists.
  split; intros [x [Hin Hx]]; exists x; split; try assumption; now apply H.
Qed.

(** The keyword loop reads the keyword sets as sets. *)
Lemma keyword_match_order (E1 E2 : Env) (t : string) :
  MED_KB E1 = MED_KB E2 ->
  set_model (set_iter E1) -> set_model (set_iter E2) ->
  keyword_match E1 t = keyword_match E2 t.
Proof.
  intros Hkb H1 H2. unfold keyword_match, INDEX.
  rewrite !find_map, Hkb. cbn [snd].
  rewrite (find_ext_in
             (fun x => existsb (fun kw => truthy kw && str_in kw t)
                               (keywords (index_entry E1 (snd x))))
             (fun x => existsb (fun kw => truthy kw && str_in kw t)
                               (keywords (index_entry E2 (snd x))))).
  - destruct (find _ (MED_KB E2)); reflexivity.
  - intros [k item] _. apply existsb_same_elements. intros kw.
    cbn [index_entry keywords snd].
    now rewrite (proj2 (H1 _)), (proj2 (H2 _)).
Qed.

(** C9, as the source has it. The answer of [find_condition_simple] is
    fixed by the knowledge base, the message and the order in which the
    keyword sets are enumerated: two evaluations that agree on these agree
    on the answer, whatever the catalogue and the library calls are. The
    key loop and the keyword loop do not depend on the enumeration order,
    so an answer of either is the same under every order. *)
Theorem matcher_depends_on (E1 E2 : Env) (msg : string) :
  MED_KB E1 = MED_KB E2 ->
  set_model (set_iter E1) ->
  set_model (set_iter E2) ->
  direct_key E1 (lower msg) = direct_key E2 (lower msg) /\
  keyword_match E1 (lower msg) = keyword_match E2 (lower msg) /\
  (direct_key E1 (lower msg) <> None \/ keyword_match E1 (lower msg) <> None ->
   find_condition_simple E1 msg = find_condition_simple E2 msg) /\
  ((forall l, set_iter E1 l = set_iter E2 l) ->
   find_condition_simple E1 msg = find_condition_simple E2 msg).
Proof.
  intros Hkb H1 H2.
  assert (Hd : direct_key E1 (lower msg) = direct_key E2 (lower msg))
    by (unfold direct_key; now rewrite Hkb).
  pose proof (keyword_match_order E1 E2 (lower msg) Hkb H1 H2) as Hk.
  split; [assumption |]. split; [assumption |]. split.
  - intros Hsome. unfold find_condition_simple. rewrite <- Hd, <- Hk.
    destruct (direct_key E1 (lower msg)); [reflexivity |].
    destruct (keyword_match E1 (lower msg)); [reflexivity |].
    now destruct Hsome.
  - intros Hiter.
    assert (Hindex : INDEX E1 = INDEX E2).
    { unfold INDEX. rewrite Hkb. apply map_ext. intros [k item].
      unfold index_entry. now rewrite Hiter. }
    unfold find_condition_simple, fuzzy_fallback, fuzzy_scores.
    now rewrite <- Hd, <- Hk, Hindex.
Qed.

(** The theorem at the example knowledge base read under the two
    enumeration orders. *)
Lemma matcher_depends_on_witness :
  direct_key example_env (lower "I keep sneezing")
  = direct_key example_env_rev (lower "I keep sneezing") /\
  keyword_match example_env (lower "I keep sneezing")
  = keyword_match example_env_rev (lower "I keep sneezing") /\
  (direct_key example_env (lower "I keep sneezing") <> None \/
   keyword_match example_env (lower "I keep sneezing") <> None ->
   find_condition_simple example_env "I keep sneezing"
   = find_condition_simple example_env_rev "I keep sneezing") /\
  ((forall l, set_iter example_env l = set_iter example_env_rev l) ->
   find_condition_simple example_env "I keep sneezing"
   = find_condition_simple example_env_rev "I keep sneezing").
Proof.
  apply (matcher_depends_on example_env example_env_rev "I keep sneezing").
  - reflexivity.
  - exact first_seen_set_model.
  - exact last_seen_first_set_model.
Defined.

(** C9, as the claim words it. The same knowledge base and the same
    message under two enumeration orders of the same keyword sets: the
    ratio of [fever] is 26/57 under one and 24/57 under the other, and the
    matcher answers [fever] under one and nothing under the other. *)
Lemma matcher_order_counterexample :
  MED_KB example_env = MED_KB example_env_rev /\
  set_model (set_iter example_env) /\
  set_model (set_iter example_env_rev) /\
  (forall l x, In x (set_iter example_env l)
               <-> In x (set_iter example_env_rev l)) /\
  fuzzy_scores example_env (lower "temperature i")
  = [ ("fever"%string, (26 # 57)%Q); ("common_cold"%string, (10 # 68)%Q);
      ("allergy"%string, (4 # 25)%Q) ] /\
  fuzzy_scores example_env_rev (lower "temperature i")
  = [ ("fever"%string, (24 # 57)%Q); ("common_cold"%string, (10 # 68)%Q);
      ("allergy"%string, (4 # 25)%Q) ] /\
  find_condition_simple example_env "temperature i"
  = (Some "fever"%string, (26 # 57)%Q) /\
  find_condition_simple example_env_rev "temperature i" = (None, 0%Q).
Proof.
  split; [reflexivity |].
  split; [exact first_seen_set_model |].
  split; [exact last_seen_first_set_model |].
  split.
  { intros l x. cbn [set_iter example_env example_env_rev].
    rewrite (proj2 (first_seen_set_model l)),
            (proj2 (last_seen_first_set_model l)). reflexivity. }
  repeat split; vm_compute; reflexivity.
Qed.

(** ** Further properties of the matcher and of the route *)

(** Every similarity ratio the fuzzy tier computes is a fraction between 0
    and 1, and the block search behind it always ends. *)
Theorem similarity_ratio_unit_interval (a b : string) :
  (exists blocks,
      difflib.get_matching_blocks (list_ascii_of_string a)
                                  (list_ascii_of_string b) = Some blocks) /\
  (0 <= difflib.ratio a b)%Q /\ (difflib.ratio a b <= 1)%Q.
Proof.
  split; [| apply ratio_range].
  destruct (get_matching_blocks_total (list_ascii_of_string a)
              (list_ascii_of_string b)) as (blocks & H & _).
  now exists blocks.
Qed.

(** The keyword loop fires on an entry exactly when one of its keywords,
    not empty, occurs in the text. *)
Lemma keyword_hit_iff (E : Env) (t : string) (item : ConditionEntry) :
  set_model (set_iter E) ->
  existsb (fun kw => truthy kw && str_in kw t)
          (keywords (index_entry E item)) = true
  <-> keyword_hit t item.
Proof.
  intros Hset. rewrite existsb_exists. unfold keyword_hit. split.
  - intros [kw [Hin H]]. apply andb_true_iff in H as [Ht Hs].
    exists kw. cbn [index_entry keywords] in Hin.
    apply (proj1 (proj2 (Hset _) _)) in Hin. cbn [app In] in Hin.
    rewrite in_map_iff in Hin.
    split; [| split; [now apply truthy_neq | assumption]].
    destruct Hin as [Heq | [s [Heq Hin]]];
      [now left | right; now exists s].
  - intros [kw [Hsrc [Hne Hs]]]. exists kw. split.
    + cbn [index_entry keywords]. apply (proj2 (proj2 (Hset _) _)).
      cbn [app In].
      rewrite in_map_iff.
      destruct Hsrc as [Heq | [s [Hin Heq]]];
        [now left | right; now exists s].
    + apply andb_true_iff. split; [now apply truthy_neq | assumption].
Qed.

(** The keyword loop over [INDEX] is a search in the knowledge base. *)
Lemma keyword_match_find (E : Env) (t : string) :
  keyword_match E t
  = option_map fst
      (find (fun kv =>
               existsb (fun kw => truthy kw && str_in kw t)
                       (keywords (index_entry E (snd kv))))
            (MED_KB E)).
Proof.
  unfold keyword_match, INDEX. rewrite find_map. cbn [snd].
  now destruct (find _ (MED_KB E)).
Qed.

(** The keyword tier. When no key occurs in the message and some entry
    has a non-empty keyword (its lowercased title or a lowercased symptom
    phrase) that occurs in the lowercased message, the matcher returns
    with score 1.0 the first such entry, in the order of the knowledge
    base. When no entry has one, the keyword loop finds nothing and the
    answer is the one of the fuzzy tier. *)
Theorem keyword_tier_first_wins (E : Env) (msg : string) :
  set_model (set_iter E) ->
  direct_key E (lower msg) = None ->
  ((exists key item,
       In (key, item) (MED_KB E) /\ keyword_hit (lower msg) item) ->
   exists pre key item post,
     MED_KB E = pre ++ (key, item) :: post /\
     keyword_hit (lower msg) item /\
     (forall ki, In ki pre -> ~ keyword_hit (lower msg) (snd ki)) /\
     keyword_match E (lower msg) = Some key /\
     find_condition_simple E msg = (Some key, 1%Q)) /\
  ((forall key item,
       In (key, item) (MED_KB E) -> ~ keyword_hit (lower msg) item) ->
   keyword_match E (lower msg) = None /\
   find_condition_simple E msg = fuzzy_fallback E (lower msg)).
Proof.
  intros Hset Hd. split.
  - intros (key0 & item0 & Hin & Hhit).
    apply (keyword_hit_iff E _ _ Hset) in Hhit.
    destruct (find_exists
                (fun kv =>
                   existsb (fun kw => truthy kw && str_in kw (lower msg))
                           (keywords (index_entry E (snd kv))))
                (MED_KB E) (key0, item0) Hin Hhit) as [[key item] Hf].
    pose proof Hf as Hfirst.
    apply find_first in Hfirst as (pre & post & Heq & Hy & Hpre).
    exists pre, key, item, post.
    assert (Hk : keyword_match E (lower msg) = Some key)
      by (rewrite keyword_match_find, Hf; reflexivity).
    split; [assumption |]. split.
    { apply (keyword_hit_iff E _ _ Hset). exact Hy. }
    split.
    { intros ki Hki Hh. apply (keyword_hit_iff E _ _ Hset) in Hh.
      rewrite (Hpre ki Hki) in Hh. discriminate. }
    split; [assumption |].
    unfold find_condition_simple. now rewrite Hd, Hk.
  - intros Hnone.
    assert (Hk : keyword_match E (lower msg) = None).
    { rewrite keyword_match_find.
      destruct (find _ (MED_KB E)) as [[key item]|] eqn:Hf; [| reflexivity].
      apply find_some in Hf as [Hin Hy]. cbn [snd] in Hy.
      apply (keyword_hit_iff E _ _ Hset) in Hy.
      now destruct (Hnone key item Hin). }
    split; [assumption |].
    unfold find_condition_simple. now rewrite Hd, Hk.
Qed.

Lemma keyword_tier_first_wins_witness :
  ((exists key item,
       In (key, item) (MED_KB example_env) /\
       keyword_hit (lower "I have chills and a runny nose") item) ->
   exists pre key item post,
     MED_KB example_env = pre ++ (key, item) :: post /\
     keyword_hit (lower "I have chills and a runny nose") item /\
     (forall ki, In ki pre ->
                 ~ keyword_hit (lower "I have chills and a runny nose")
                               (snd ki)) /\
     keyword_match example_env (lower "I have chills and a runny nose")
     = Some key /\
     find_condition_simple example_env "I have chills and a runny nose"
     = (Some key, 1%Q)) /\
  ((forall key item,
       In (key, item) (MED_KB example_env) ->
       ~ keyword_hit (lower "I have chills and a runny nose") item) ->
   keyword_match example_env (lower "I have chills and a runny nose") = None /\
   find_condition_simple example_env "I have chills and a runny nose"
   = fuzzy_fallback example_env (lower "I have chills and a runny nose")).
Proof.
  apply (keyword_tier_first_wins example_env
           "I have chills and a runny nose").
  - exact first_seen_set_model.
  - reflexivity.
Defined.

(** The keyword tier on the example knowledge base: both [fever] and
    [common_cold] have a keyword in the message, and the first of the two
    is returned. *)
Example keyword_tier_example :
  keyword_hit (lower "I have chills and a runny nose")
              {| title := Some "Common Cold";
                 symptoms := Some ["runny nose"; "sneezing"; "sore throat"];
                 description := Some "A viral infection of the nose and throat.";
                 when_to_seek_care := None |} /\
  find_condition_simple example_env "I have chills and a runny nose"
  = (Some "fever"%string, 1%Q).
Proof.
  split; [| reflexivity].
  exists "runny nose"%string. split; [| split; [discriminate | reflexivity]].
  right. exists "runny nose"%string. split; [now left | reflexivity].
Qed.

(** A follow-up without a condition is answered from the history: after a
    first request that names [fever], the request "what medicine" is
    answered by the previous-condition branch and stores [fever] again. *)
Example follow_up_uses_previous_condition :
  let first :=
    chat example_env
         {| message := Some "precautions for fever"%string;
            symptom_mode := false |} None in
  let second :=
    chat example_env
         {| message := Some "what medicine"%string; symptom_mode := false |}
         (snd first) in
  fst (fst first) = PrecautionNamed /\
  fst (fst second) = PrecautionPrevious /\
  map condition (get_history (snd second))
  = [Some "fever"%string; Some "fever"%string] /\
  startswith "Based on your previous condition (**Fever**)"
             (reply (snd (fst second))) = true.
Proof. vm_compute. repeat split. Qed.

(** The stages of the route on the example knowledge base: small talk,
    symptom mode with its three separators, an entry without a title
    (the [KeyError] ends in the server-error answer), and the fallback. *)
Example chat_stage_examples :
  fst (fst (chat example_env
              {| message := Some "Oh, hi!"%string; symptom_mode := false |}
              None)) = Smalltalk /\
  reply (snd (fst (chat example_env
              {| message := Some "Oh, hi!"%string; symptom_mode := false |}
              None))) = "Hello!"%string /\
  example_split ",|;| and " "chills, runny nose and sneezing; sweating"
  = ["chills"; " runny nose"; "sneezing"; " sweating"]%string /\
  reply (snd (fst (chat example_env
              {| message :=
                   Some "chills, runny nose and sneezing; sweating"%string;
                 symptom_mode := true |}
              None)))
  = ("Possible matches (symptom-checker):" ++ nl
     ++ "- Fever (score: 0.5)" ++ nl
     ++ "- Common Cold (score: 0.5)" ++ nl)%string /\
  fst (fst (chat example_env
              {| message := Some "itchy eyes"%string; symptom_mode := true |}
              None)) = ServerError /\
  fst (fst (chat example_env
              {| message := Some "zzz"%string; symptom_mode := false |}
              None)) = Fallback.
Proof. vm_compute. repeat split. Qed.

(** * Further properties of the code *)

(** ** The sort is stable, descending and keeps the elements *)

Lemma insert_desc_perm (x : string * Q) (l : list (string * Q)) :
  Permutation (insert_desc x l) (x :: l).
Proof.
  induction l as [|y l IH]; [reflexivity |]. cbn [insert_desc].
  destruct (Qlt_bool (snd x) (snd y)); [| reflexivity].
  rewrite IH. apply perm_swap.
Qed.

Lemma sort_desc_perm (l : list (string * Q)) : Permutation (sort_desc l) l.
Proof.
  induction l as [|x l IH]; [reflexivity |].
  cbn [sort_desc fold_right]. fold (sort_desc l).
  rewrite insert_desc_perm. now constructor.
Qed.

Lemma insert_desc_sorted (x : string * Q) (l : list (string * Q)) :
  StronglySorted score_desc l -> StronglySorted score_desc (insert_desc x l).
Proof.
  induction l as [|y l IH]; intros Hs; cbn [insert_desc].
  - repeat constructor.
  - inversion Hs as [|y' l' Hl Hy]; subst.
    destruct (Qlt_bool (snd x) (snd y)) eqn:Hlt.
    + apply Qlt_bool_iff in Hlt. constructor; [now apply IH |].
      apply Forall_forall. intros z Hz.
      apply (Permutation_in _ (insert_desc_perm x l)) in Hz.
      destruct Hz as [<- | Hz].
      * unfold score_desc. now apply Qlt_le_weak.
      * rewrite Forall_forall in Hy. now apply Hy.
    + apply Qlt_bool_false in Hlt. constructor; [assumption |].
      constructor; [exact Hlt |].
      apply Forall_forall. intros z Hz. rewrite Forall_forall in Hy.
      unfold score_desc in *. eapply Qle_trans; [now apply Hy | assumption].
Qed.

Lemma sort_desc_sorted (l : list (string * Q)) :
  StronglySorted score_desc (sort_desc l).
Proof.
  induction l as [|x l IH]; [constructor |].
  cbn [sort_desc fold_right]. fold (sort_desc l).
  now apply insert_desc_sorted.
Qed.

Lemma filter_sorted {A : Type} (R : A -> A -> Prop) (f : A -> bool)
    (l : list A) :
  StronglySorted R l -> StronglySorted R (filter f l).
Proof.
  induction 1 as [|x l Hl IH Hx]; simpl; [constructor |].
  destruct (f x); [| assumption]. constructor; [assumption |].
  apply Forall_forall. intros y Hy. apply filter_In in Hy as [Hy _].
  rewrite Forall_forall in Hx. now apply Hx.
Qed.

Lemma firstn_sorted {A : Type} (R : A -> A -> Prop) (n : nat) (l : list A) :
  StronglySorted R l -> StronglySorted R (firstn n l).
Proof.
  intros Hs. revert n. induction Hs as [|x l Hl IH Hx]; intros [|n]; simpl;
    try constructor.
  - apply IH.
  - apply Forall_forall. intros y Hy.
    rewrite Forall_forall in Hx. apply Hx.
    rewrite <- (firstn_skipn n l). apply in_or_app. now left.
Qed.

Lemma firstn_in {A : Type} (n : nat) (l : list A) (x : A) :
  In x (firstn n l) -> In x l.
Proof.
  intros H. rewrite <- (firstn_skipn n l). apply in_or_app. now left.
Qed.

Lemma filter_keys_nodup {A B : Type} (f : A * B -> bool) (l : list (A * B)) :
  NoDup (map fst l) -> NoDup (map fst (filter f l)).
Proof.
  induction l as [|x l IH]; simpl; intros H; [constructor |].
  inversion H as [|k ks Hk Hl]; subst.
  destruct (f x); [| now apply IH]. simpl. constructor; [| now apply IH].
  intros Hin. apply Hk. apply in_map_iff in Hin as [y [Hy Hin]].
  apply filter_In in Hin as [Hin _]. rewrite <- Hy. now apply in_map.
Qed.

Lemma firstn_keys_nodup {A B : Type} (n : nat) (l : list (A * B)) :
  NoDup (map fst l) -> NoDup (map fst (firstn n l)).
Proof.
  revert n. induction l as [|x l IH]; intros [|n] H; simpl;
    try constructor.
  - inversion H as [|k ks Hk Hl]; subst. intros Hin. apply Hk.
    apply in_map_iff in Hin as [y [Hy Hin]]. rewrite <- Hy.
    apply in_map. now apply (firstn_in n).
  - inversion H; subst. now apply IH.
Qed.

Lemma symptom_scores_keys_nodup (E : Env) (symptoms_list : list string) :
  NoDup (dict_keys (MED_KB E)) ->
  NoDup (map fst (symptom_scores E symptoms_list)).
Proof.
  rewrite <- INDEX_keys. unfold symptom_scores, dict_keys.
  induction (INDEX E) as [|[k meta] l IH]; intros H; [constructor |].
  cbn [map fst] in H. inversion H as [|k' ks Hk Hl]; subst.
  cbn [flat_map fst snd]. destruct (kw_set_of E meta); [now apply IH |].
  cbn [app map fst]. constructor; [| now apply IH].
  intros Hin. apply Hk. apply in_map_iff in Hin as [[k' sc] [Hk' Hin]].
  cbn [fst] in Hk'. subst k'. apply in_flat_map in Hin as [[k2 m2] [Hin H2]].
  cbn [fst snd] in H2. destruct (kw_set_of E m2); [contradiction |].
  destruct H2 as [H2 | []]. injection H2 as -> _.
  now apply (in_map fst _ (k, m2)).
Qed.

(** ** What [symptom_checker] returns *)

Lemma symptom_checker_raws (E : Env) (symptoms_list : list string)
    (top_n : nat) :
  exists raws,
    symptom_checker E symptoms_list top_n
    = map (fun ks => (fst ks, round3 E (snd ks))) raws /\
    length raws <= top_n /\
    StronglySorted score_desc raws /\
    (forall key score,
        In (key, score) raws ->
        (0 < score)%Q /\ In key (dict_keys (MED_KB E)) /\
        In (key, score) (symptom_scores E symptoms_list)) /\
    (NoDup (dict_keys (MED_KB E)) -> NoDup (map fst raws)).
Proof.
  exists (firstn top_n
            (filter (fun ks => Qlt_bool 0 (snd ks))
                    (sort_desc (symptom_scores E symptoms_list)))).
  split; [| split; [| split; [| split]]].
  - unfold symptom_checker. now rewrite firstn_map.
  - apply firstn_le_length.
  - apply firstn_sorted, filter_sorted, sort_desc_sorted.
  - intros key score Hin. apply firstn_in in Hin.
    apply filter_In in Hin as [Hin Hpos]. cbn [snd] in Hpos.
    apply Qlt_bool_iff in Hpos.
    apply (Permutation_in _ (sort_desc_perm _)) in Hin.
    split; [assumption |]. split; [| assumption].
    apply symptom_scores_in in Hin as (meta & Hmeta & _).
    rewrite <- INDEX_keys. now apply (in_map fst _ (key, meta)).
  - intros Hnd. apply firstn_keys_nodup, filter_keys_nodup.
    apply (Permutation_NoDup
             (Permutation_map fst
                (Permutation_sym
                   (sort_desc_perm (symptom_scores E symptoms_list))))).
    now apply symptom_scores_keys_nodup.
Qed.

(** [symptom_checker] returns at most [top_n] candidates. They are the
    conditions of the knowledge base with a positive score, best score
    first (the scores as they are before rounding), each with its score
    rounded; no condition is listed twice when the keys of the knowledge
    base are distinct. *)
Theorem symptom_checker_result (E : Env) (symptoms_list : list string)
    (top_n : nat) :
  exists raws,
    symptom_checker E symptoms_list top_n
    = map (fun ks => (fst ks, round3 E (snd ks))) raws /\
    length raws <= top_n /\
    StronglySorted score_desc raws /\
    (forall key score,
        In (key, score) raws ->
        (0 < score)%Q /\ In key (dict_keys (MED_KB E)) /\
        In (key, score) (symptom_scores E symptoms_list)) /\
    (NoDup (dict_keys (MED_KB E)) -> NoDup (map fst raws)).
Proof. exact (symptom_checker_raws E symptoms_list top_n). Qed.

(** The candidates for four phrases on the example knowledge base. *)
Example symptom_checker_example :
  symptom_checker example_env
    ["chills"; "runny nose"; "sneezing"; "sweating"]%string 6
  = [ ("fever"%string, (500 # 1000)%Q);
      ("common_cold"%string, (500 # 1000)%Q) ] /\
  symptom_checker example_env
    ["chills"; "runny nose"; "sneezing"; "sweating"]%string 1
  = [ ("fever"%string, (500 # 1000)%Q) ].
Proof. split; vm_compute; reflexivity. Qed.

(** ** The matcher returns keys of the knowledge base *)

Lemma find_condition_in_keys (E : Env) (msg key : string) (score : Q) :
  find_condition_simple E msg = (Some key, score) ->
  In key (dict_keys (MED_KB E)).
Proof.
  unfold find_condition_simple.
  destruct (direct_key E (lower msg)) as [k|] eqn:Hd.
  { intros [= <- _]. unfold direct_key in Hd.
    now destruct (find_some _ _ Hd). }
  destruct (keyword_match E (lower msg)) as [k|] eqn:Hk.
  { intros [= <- _]. unfold keyword_match in Hk.
    destruct (find _ (INDEX E)) as [[k' meta]|] eqn:Hf; [| discriminate].
    cbn [option_map fst] in Hk. injection Hk as ->.
    rewrite <- INDEX_keys. destruct (find_some _ _ Hf) as [Hin _].
    now apply (in_map fst _ (k, meta)). }
  intros H.
  destruct (fuzzy_fallback_cases E (lower msg))
    as [(k & s & Hk' & (pre & post & Heq & _) & _) | Hnone].
  - rewrite Hk' in H. injection H as <- <-.
    rewrite <- (fuzzy_scores_keys E (lower msg)), Heq, map_app.
    apply in_or_app. right. now left.
  - rewrite Hnone in H. discriminate.
Qed.

(** A condition returned by [find_condition_simple] is a key of the
    knowledge base, whichever tier found it. *)
Theorem find_condition_known_key (E : Env) (msg key : string) (score : Q) :
  find_condition_simple E msg = (Some key, score) ->
  In key (dict_keys (MED_KB E)).
Proof. exact (find_condition_in_keys E msg key score). Qed.

Lemma find_condition_known_key_witness :
  In "fever"%string (dict_keys (MED_KB example_env)).
Proof.
  apply (find_condition_known_key example_env "temperature i" "fever"
           (26 # 57)%Q).
  vm_compute. reflexivity.
Defined.

(** ** The conditions a request records *)

Lemma dict_get_in {V : Type} (key : string) (d : list (string * V)) (v : V) :
  dict_get key d = Some v -> In (key, v) d.
Proof.
  unfold dict_get. destruct (find _ d) as [[k v']|] eqn:Hf; [| discriminate].
  intros [= <-]. destruct (find_some _ _ Hf) as [Hin Hk].
  cbn [fst] in Hk. apply String.eqb_eq in Hk. now subst k.
Qed.

Lemma dict_get_of_key {V : Type} (key : string) (d : list (string * V)) :
  In key (dict_keys d) -> exists v, dict_get key d = Some v.
Proof. intros H. now apply dict_in_get, dict_in_keys. Qed.

Lemma scan_history_known (E : Env) (l : list DialogTurn) (k : string) :
  history_known E l -> scan_history E l = Some k ->
  In k (dict_keys (MED_KB E)).
Proof.
  induction 1 as [|e l He Hl IH]; cbn [scan_history]; [discriminate |].
  destruct (truthy_opt (condition e)).
  - intros Hc. now rewrite Hc in He.
  - destruct (key_in_text E (lower (bot e))) as [key|] eqn:Hk.
    + intros [= <-]. unfold key_in_text in Hk.
      now destruct (find_some _ _ Hk).
    + exact IH.
Qed.

Lemma last_condition_known (E : Env) (session : Session) (k : string) :
  history_known E (get_history session) ->
  last_matched_condition_from_history E session = Some k ->
  In k (dict_keys (MED_KB E)).
Proof.
  intros H. apply scan_history_known. unfold history_known in *.
  now apply Forall_rev.
Qed.

(** The session after a request: unchanged, or one turn more whose
    condition is [None], the condition the matcher found in the message, or
    the condition read from the history. *)
Lemma chat_session_cases (E : Env) (data : Payload) (session : Session) :
  snd (chat E data session) = session \/
  exists cond,
    snd (chat E data session) =
    add_to_history session (strip (get_or (message data) ""))
                   (reply (snd (fst (chat E data session)))) cond /\
    (cond = None \/
     (truthy_opt cond = true /\
      (cond = fst (find_condition_simple E (strip (get_or (message data) "")))
       \/ cond = last_matched_condition_from_history E session))).
Proof.
  unfold chat.
  destruct (negb (truthy (strip (get_or (message data) "")))); [now left |].
  unfold chat_body.
  destruct (find_condition_simple E (strip (get_or (message data) "")))
    as [cond score] eqn:Hm. cbn [fst].
  destruct (check_emergency _) as [[] sign].
  { right. exists None. cbn. split; [reflexivity | now left]. }
  destruct (truthy_opt (match_smalltalk E _)).
  { right. exists None. cbn. split; [reflexivity | now left]. }
  destruct (existsb _ INTENT_KEYWORDS).
  - destruct (truthy_opt cond) eqn:Hc.
    + on_raise ltac:(now left). on_raise ltac:(now left).
      right. exists cond. cbn. split; [reflexivity |]. right. now split; [| left].
    + destruct (truthy_opt (last_matched_condition_from_history E session))
        eqn:Hl.
      * on_raise ltac:(now left). on_raise ltac:(now left).
        right. eexists. cbn. split; [reflexivity |].
        right. now split; [| right].
      * right. exists None. cbn. split; [reflexivity | now left].
  - destruct (symptom_mode data).
    + on_raise ltac:(now left).
      right. exists None. cbn. split; [reflexivity | now left].
    + destruct (truthy_opt cond) eqn:Hc.
      * destruct (dict_get _ _); [| now left].
        on_raise ltac:(now left). on_raise ltac:(now left).
        right. exists cond. cbn. split; [reflexivity |].
        right. now split; [| left].
      * right. exists None. cbn. split; [reflexivity | now left].
Qed.

(** If every condition stored in the history is a key of the knowledge
    base, the same holds after any request. *)
Theorem chat_keeps_history_known (E : Env) (data : Payload)
    (session : Session) :
  history_known E (get_history session) ->
  history_known E (get_history (snd (chat E data session))).
Proof.
  intros Hs.
  destruct (chat_session_cases E data session)
    as [-> | (cond & -> & Hcond)]; [assumption |].
  unfold add_to_history. cbn [get_history get_or].
  apply Forall_app. split; [assumption |].
  repeat constructor. cbn [condition].
  destruct Hcond as [-> | [Ht [Hc | Hc]]]; [exact I | |].
  - destruct cond as [k|]; [| exact I].
    destruct (find_condition_simple E _) as [c sc] eqn:Hm.
    cbn [fst] in Hc. subst c.
    exact (find_condition_in_keys E _ k sc Hm).
  - destruct cond as [k|]; [| exact I].
    now apply (last_condition_known E session).
Qed.

Lemma chat_keeps_history_known_witness :
  history_known example_env
    (get_history
       (snd (chat example_env
               {| message := Some "what medicine"%string;
                  symptom_mode := false |}
               (Some example_history)))).
Proof.
  apply (chat_keeps_history_known example_env
           {| message := Some "what medicine"%string; symptom_mode := false |}
           (Some example_history)).
  unfold history_known, example_history. cbn [get_history get_or].
  repeat constructor.
Defined.

(** ** Requests that cannot fail *)

Lemma mapM_ok_exists {A B : Type} (f : A -> result B) (l : list A) :
  (forall x, In x l -> exists y, f x = Ok y) -> exists ys, mapM f l = Ok ys.
Proof.
  induction l as [|x l IH]; intros H; [now exists [] |].
  destruct (H x (or_introl eq_refl)) as [y Hy].
  destruct IH as [ys Hys]; [intros z Hz; apply H; now right |].
  exists (y :: ys). cbn [mapM]. rewrite Hy. cbn [bind]. now rewrite Hys.
Qed.

Lemma get_medicine_text_ok (E : Env) (key : string) :
  kb_complete E -> exists r, get_medicine_text E key = Ok r.
Proof.
  intros [_ Hn]. unfold get_medicine_text.
  destruct (dict_get key (MEDICINES E)) as [meds|] eqn:Hg; [| now exists None].
  apply dict_get_in in Hg.
  destruct (mapM_ok_exists medicine_line meds) as [lines ->].
  - intros m Hm. unfold medicine_line.
    destruct (name m) eqn:Hname; [eexists; reflexivity |].
    now destruct (Hn key meds m Hg Hm).
  - now eexists.
Qed.

Lemma kb_title_ok (E : Env) (key : string) :
  kb_complete E -> In key (dict_keys (MED_KB E)) ->
  exists t, kb_title E key = Ok t.
Proof.
  intros [Ht _] Hin. unfold kb_title.
  destruct (dict_get_of_key key (MED_KB E) Hin) as [info Hg]. rewrite Hg.
  destruct (title info) as [t|] eqn:Htitle; [now exists t |].
  apply dict_get_in in Hg. now destruct (Ht key info Hg).
Qed.

Lemma truthy_opt_some (o : option string) :
  truthy_opt o = true -> exists k, o = Some k.
Proof. destruct o as [k|]; [now exists k | discriminate]. Qed.

(** With a complete knowledge base and a known history, nothing raises
    once the payload is read. *)
Lemma chat_payload_no_error (E : Env) (data : Payload) (session : Session) :
  kb_complete E ->
  history_known E (get_history session) ->
  fst (fst (chat E data session)) <> ServerError /\
  status (snd (fst (chat E data session))) = 200.
Proof.
  intros Hc Hs. unfold chat.
  destruct (negb (truthy (strip (get_or (message data) ""))));
    [now split |].
  unfold chat_body.
  destruct (find_condition_simple E (strip (get_or (message data) "")))
    as [cond score] eqn:Hm. cbn [fst].
  destruct (check_emergency _) as [[] sign]; [now split |].
  destruct (truthy_opt (match_smalltalk E _)); [now split |].
  destruct (existsb _ INTENT_KEYWORDS).
  - destruct (truthy_opt cond) eqn:Ht.
    + destruct (truthy_opt_some _ Ht) as [k ->]. cbn [get_or].
      destruct (get_medicine_text_ok E k Hc) as [med ->]. cbn [bind].
      destruct (kb_title_ok E k Hc (find_condition_in_keys E _ k score Hm))
        as [t ->].
      now split.
    + destruct (truthy_opt (last_matched_condition_from_history E session))
        eqn:Hl; [| now split].
      destruct (truthy_opt_some _ Hl) as [k Hk]. rewrite Hk. cbn [get_or].
      destruct (get_medicine_text_ok E k Hc) as [med ->]. cbn [bind].
      destruct (kb_title_ok E k Hc (last_condition_known E session k Hs Hk))
        as [t ->].
      now split.
  - destruct (symptom_mode data).
    + match goal with
      | |- context [mapM ?f ?l] =>
          destruct (mapM_ok_exists f l) as [cands ->]
      end; [| now split].
      intros [k sc] Hin. cbn [fst snd].
      destruct (symptom_checker_raws E
                  (map (fun p => lower (strip p))
                       (filter (fun p => truthy (strip p))
                               (re_split E ",|;| and "
                                  (strip (get_or (message data) "")))))
                  6) as (raws & Heq & _ & _ & Hraws & _).
      rewrite Heq in Hin. apply in_map_iff in Hin as [[k' sc'] [Hk Hin]].
      cbn [fst snd] in Hk. injection Hk as -> _.
      destruct (Hraws _ _ Hin) as (_ & Hkey & _).
      destruct (kb_title_ok E k Hc Hkey) as [t ->]. cbn [bind]. now eexists.
    + destruct (truthy_opt cond) eqn:Ht; [| now split].
      destruct (truthy_opt_some _ Ht) as [k ->]. cbn [get_or].
      pose proof (find_condition_in_keys E _ k score Hm) as Hk.
      destruct (dict_get_of_key k (MED_KB E) Hk) as [info ->].
      destruct (get_medicine_text_ok E k Hc) as [med ->]. cbn [bind].
      destruct (kb_title_ok E k Hc Hk) as [t ->].
      now split.
Qed.

Lemma complete_env_complete : kb_complete complete_env.
Proof.
  split.
  - intros key item Hin. cbn in Hin.
    destruct Hin as [H | [H | []]]; injection H as <- <-; discriminate.
  - intros key meds m Hin Hm. cbn in Hin.
    destruct Hin as [H | [H | []]]; injection H as <- <-; cbn in Hm.
    + destruct Hm as [<- | [<- | []]]; discriminate.
    + contradiction.
Qed.

Lemma message_text_none (v : option Json) :
  message_text v = None <->
  exists j, v = Some j /\ json_truthy j = true /\ forall s, j <> JStr s.
Proof.
  split.
  - destruct v as [j|]; [| discriminate]. cbn [message_text].
    destruct (json_truthy j) eqn:Ht; [| discriminate].
    destruct j; try discriminate; intros _; eexists;
      (split; [reflexivity | split; [assumption | discriminate]]).
  - intros (j & -> & Ht & Hs). cbn [message_text]. rewrite Ht.
    destruct j; try reflexivity. now destruct (Hs s).
Qed.

(** The payload cannot be read exactly for the three kinds of body that
    make one of the first statements of [chat] raise. *)
Lemma read_payload_none (body : option Json) :
  read_payload body = None <-> unreadable body.
Proof.
  unfold unreadable. split.
  - destruct body as [j|]; [| now left]. cbn [read_payload].
    destruct (json_truthy j) eqn:Ht.
    + destruct j as [| b | z | f | s | items | data];
        try (intros _; right; left; eexists;
             split; [reflexivity | split; [assumption | discriminate]]).
      destruct (message_text (dict_get "message" data)) eqn:Hm;
        [discriminate |].
      intros _. right. right.
      apply message_text_none in Hm as (v & Hv & Htv & Hs).
      now exists data, v.
    + cbn. discriminate.
  - intros [-> | [(j & -> & Ht & Hd) | (data & v & -> & Hv & Ht & Hs)]].
    + reflexivity.
    + cbn [read_payload]. rewrite Ht.
      destruct j; try reflexivity. now destruct (Hd fields).
    + cbn [read_payload].
      destruct data as [|kv data]; [discriminate Hv |].
      cbn [json_truthy]. rewrite Hv.
      assert (Hm : message_text (Some v) = None)
        by (apply message_text_none; now exists v).
      now rewrite Hm.
Qed.

(** When every entry of the knowledge base has a title, every medicine
    has a name and the conditions stored in the history are keys of the
    knowledge base, a request ends in the server-error answer exactly
    when its body cannot be read: [get_json()] raises, or the body is a
    true value that is not a dictionary, or its message is a true value
    that is not a string. The answer is then the one of the [except]
    clause and the session is left as it was; every other request is
    answered with status 200, whatever the message and the symptom-mode
    flag are. *)
Theorem chat_no_server_error (E : Env) (body : option Json)
    (session : Session) :
  kb_complete E ->
  history_known E (get_history session) ->
  (fst (fst (chat_request E body session)) = ServerError <->
   unreadable body) /\
  (status (snd (fst (chat_request E body session))) = 500 <->
   unreadable body) /\
  (~ unreadable body ->
   status (snd (fst (chat_request E body session))) = 200) /\
  (unreadable body ->
   chat_request E body session =
   (ServerError,
    {| reply := "Server error occurred."; disclaimer := DISCLAIMER;
       history := None; candidates := None; status := 500 |},
    session)).
Proof.
  intros Hc Hs. unfold chat_request.
  destruct (read_payload body) as [data|] eqn:Hr.
  - destruct (chat_payload_no_error E data session Hc Hs) as [Hstage Hst].
    assert (Hread : ~ unreadable body).
    { intros Hu. apply read_payload_none in Hu. congruence. }
    split; [| split; [| split]].
    + split; [intros H; now destruct Hstage | intros H; now destruct Hread].
    + rewrite Hst. split; [discriminate | intros H; now destruct Hread].
    + intros _. exact Hst.
    + intros H. now destruct Hread.
  - assert (Hu : unreadable body) by now apply read_payload_none.
    split; [| split; [| split]].
    + now split.
    + now split.
    + intros H. now destruct H.
    + reflexivity.
Qed.

Lemma chat_no_server_error_witness :
  (fst (fst (chat_request complete_env
               (Some (JDict [("message"%string, JStr "what medicine")]))
               (Some example_history))) = ServerError <->
   unreadable (Some (JDict [("message"%string, JStr "what medicine")]))) /\
  (status (snd (fst (chat_request complete_env
               (Some (JDict [("message"%string, JStr "what medicine")]))
               (Some example_history)))) = 500 <->
   unreadable (Some (JDict [("message"%string, JStr "what medicine")]))) /\
  (~ unreadable (Some (JDict [("message"%string, JStr "what medicine")])) ->
   status (snd (fst (chat_request complete_env
               (Some (JDict [("message"%string, JStr "what medicine")]))
               (Some example_history)))) = 200) /\
  (unreadable (Some (JDict [("message"%string, JStr "what medicine")])) ->
   chat_request complete_env
     (Some (JDict [("message"%string, JStr "what medicine")]))
     (Some example_history) =
   (ServerError,
    {| reply := "Server error occurred."; disclaimer := DISCLAIMER;
       history := None; candidates := None; status := 500 |},
    Some example_history)).
Proof.
  apply (chat_no_server_error complete_env
           (Some (JDict [("message"%string, JStr "what medicine")]))
           (Some example_history)).
  - exact complete_env_complete.
  - unfold history_known, example_history. cbn [get_history get_or].
    repeat constructor.
Defined.

(** Bodies of requests on the complete example knowledge base: a number
    as message, a list as body and a body that [get_json()] rejects end
    in the server-error answer; [null], an empty object and a false
    message are empty input; the symptom-mode flag is read by its truth
    value. *)
Example chat_request_examples :
  status (snd (fst (chat_request complete_env
                      (Some (JDict [("message"%string, JInt 5)])) None)))
  = 500 /\
  fst (fst (chat_request complete_env (Some (JList [JInt 1])) None))
  = ServerError /\
  fst (fst (chat_request complete_env None None)) = ServerError /\
  fst (fst (chat_request complete_env (Some JNull) None)) = EmptyInput /\
  fst (fst (chat_request complete_env (Some (JDict [])) None))
  = EmptyInput /\
  fst (fst (chat_request complete_env
              (Some (JDict [("message"%string, JInt 0)])) None))
  = EmptyInput /\
  fst (fst (chat_request complete_env
              (Some (JDict [("message"%string, JStr "chills, sweating");
                            ("symptom_mode"%string, JStr "yes")])) None))
  = SymptomMode /\
  fst (fst (chat_request complete_env
              (Some (JDict [("message"%string, JStr "chills, sweating");
                            ("symptom_mode"%string, JInt 0)])) None))
  = ConditionDetail.
Proof. vm_compute. repeat split. Qed.

(** A matched entry without a title: the index accepts it (its title
    reads as the empty string there), the detail reply reads
    [info['title']] and the request ends in the server-error answer, the
    session untouched. *)
Theorem condition_without_title_fails (E : Env) (data : Payload)
    (session : Session) (raw key : string) (score : Q)
    (info : ConditionEntry) :
  message data = Some raw ->
  symptom_mode data = false ->
  truthy (strip raw) = true ->
  check_emergency (strip raw) = (false, None) ->
  truthy_opt (match_smalltalk E (strip raw)) = false ->
  existsb (fun kw => str_in kw (lower (strip raw))) INTENT_KEYWORDS = false ->
  find_condition_simple E (strip raw) = (Some key, score) ->
  truthy key = true ->
  dict_get key (MED_KB E) = Some info ->
  title info = None ->
  chat E data session =
  (ServerError,
   {| reply := "Server error occurred."; disclaimer := DISCLAIMER;
      history := None; candidates := None; status := 500 |},
   session).
Proof.
  intros Hraw Hmode Hne Hem Hsm Hint Hm Hkey Hinfo Htitle.
  unfold chat. rewrite Hraw. cbn [get_or]. rewrite Hne. cbn [negb].
  unfold chat_body. rewrite Hem, Hsm, Hint, Hm, Hmode. cbn [fst truthy_opt].
  rewrite Hkey. cbn [get_or]. rewrite Hinfo.
  unfold kb_title. rewrite Hinfo, Htitle.
  destruct (get_medicine_text E key); reflexivity.
Qed.

Lemma condition_without_title_fails_witness :
  chat example_env
       {| message := Some "My itchy eyes"%string; symptom_mode := false |}
       (Some example_history) =
  (ServerError,
   {| reply := "Server error occurred."; disclaimer := DISCLAIMER;
      history := None; candidates := None; status := 500 |},
   Some example_history).
Proof.
  apply (condition_without_title_fails example_env
           {| message := Some "My itchy eyes"%string; symptom_mode := false |}
           (Some example_history) "My itchy eyes" "allergy" 1%Q allergy_entry);
    reflexivity.
Defined.

(** ** The history is read by one branch only *)

(** When the message holds no precaution or medicine key word, or names a
    condition itself, the stage that answers, the reply, the candidates and
    the status are the same for every session: only a precaution or
    medicine request that names no condition reads the history. *)
Theorem chat_reply_independent_of_history (E : Env) (data : Payload)
    (s1 s2 : Session) :
  existsb (fun kw => str_in kw (lower (strip (get_or (message data) ""))))
          INTENT_KEYWORDS = false \/
  truthy_opt (fst (find_condition_simple E (strip (get_or (message data) ""))))
  = true ->
  fst (fst (chat E data s1)) = fst (fst (chat E data s2)) /\
  reply (snd (fst (chat E data s1))) = reply (snd (fst (chat E data s2))) /\
  candidates (snd (fst (chat E data s1)))
  = candidates (snd (fst (chat E data s2))) /\
  status (snd (fst (chat E data s1))) = status (snd (fst (chat E data s2))).
Proof.
  intros H. unfold chat.
  destruct (negb (truthy (strip (get_or (message data) ""))));
    [now repeat split |].
  unfold chat_body.
  destruct (find_condition_simple E (strip (get_or (message data) "")))
    as [cond score] eqn:Hm. cbn [fst] in *.
  destruct (check_emergency _) as [[] sign]; [now repeat split |].
  destruct (truthy_opt (match_smalltalk E _)); [now repeat split |].
  destruct (existsb _ INTENT_KEYWORDS).
  - destruct H as [H | H]; [discriminate |]. rewrite H.
    destruct (get_medicine_text E _); cbn [bind]; [| now repeat split].
    destruct (kb_title E _); cbn [bind]; now repeat split.
  - destruct (symptom_mode data).
    + destruct (mapM _ _); cbn [bind]; now repeat split.
    + destruct (truthy_opt cond); [| now repeat split].
      destruct (dict_get _ _); [| now repeat split].
      destruct (get_medicine_text E _); cbn [bind]; [| now repeat split].
      destruct (kb_title E _); cbn [bind]; now repeat split.
Qed.

Lemma chat_reply_independent_of_history_witness :
  fst (fst (chat example_env
              {| message := Some "medicine for fever"%string;
                 symptom_mode := false |} None))
  = fst (fst (chat example_env
              {| message := Some "medicine for fever"%string;
                 symptom_mode := false |} (Some example_history))) /\
  reply (snd (fst (chat example_env
              {| message := Some "medicine for fever"%string;
                 symptom_mode := false |} None)))
  = reply (snd (fst (chat example_env
              {| message := Some "medicine for fever"%string;
                 symptom_mode := false |} (Some example_history)))) /\
  candidates (snd (fst (chat example_env
              {| message := Some "medicine for fever"%string;
                 symptom_mode := false |} None)))
  = candidates (snd (fst (chat example_env
              {| message := Some "medicine for fever"%string;
                 symptom_mode := false |} (Some example_history)))) /\
  status (snd (fst (chat example_env
              {| message := Some "medicine for fever"%string;
                 symptom_mode := false |} None)))
  = status (snd (fst (chat example_env
              {| message := Some "medicine for fever"%string;
                 symptom_mode := false |} (Some example_history)))).
Proof.
  apply (chat_reply_independent_of_history example_env
           {| message := Some "medicine for fever"%string;
              symptom_mode := false |}
           None (Some example_history)).
  right. reflexivity.
Defined.

(** ** A recorded condition is the one a follow-up gets *)

Lemma resolve_after_record (E : Env) (data : Payload)
    (session : Session) (turn : DialogTurn) (key : string) :
  get_history (snd (chat E data session)) = get_history session ++ [turn] ->
  condition turn = Some key ->
  last_matched_condition_from_history E (snd (chat E data session))
  = Some key.
Proof.
  intros Hh Hk.
  destruct (chat_outcome E data session)
    as [(Hs & _) | (cond & Hs & _ & _ & Hcond)].
  - rewrite Hs in Hh. apply (f_equal (@length DialogTurn)) in Hh.
    rewrite length_app in Hh. simpl in Hh. lia.
  - rewrite Hs in Hh |- *. unfold add_to_history in Hh.
    cbn [get_history get_or] in Hh. apply app_inv_head in Hh.
    injection Hh as <-. cbn [condition] in Hk. subst cond.
    unfold add_to_history. rewrite scan_history_app. cbn [condition].
    destruct Hcond as [Hc | Hc]; [discriminate |]. now rewrite Hc.
Qed.

(** When a request appends a turn that stores a condition, that condition
    is what [last_matched_condition_from_history] returns on the session
    the request leaves behind, whatever the older turns hold. *)
Theorem answered_condition_is_remembered (E : Env) (data : Payload)
    (session : Session) (turn : DialogTurn) (key : string) :
  get_history (snd (chat E data session)) = get_history session ++ [turn] ->
  condition turn = Some key ->
  last_matched_condition_from_history E (snd (chat E data session))
  = Some key.
Proof. exact (resolve_after_record E data session turn key). Qed.

Lemma answered_condition_is_remembered_witness :
  last_matched_condition_from_history example_env
    (snd (chat example_env
            {| message := Some "I keep sneezing"%string;
               symptom_mode := false |}
            (Some example_history)))
  = Some "common_cold"%string.
Proof.
  apply (answered_condition_is_remembered example_env
           {| message := Some "I keep sneezing"%string;
              symptom_mode := false |}
           (Some example_history)
           {| user := "I keep sneezing";
              bot := reply (snd (fst (chat example_env
                       {| message := Some "I keep sneezing"%string;
                          symptom_mode := false |}
                       (Some example_history))));
              condition := Some "common_cold"%string |}
           "common_cold");
    vm_compute; reflexivity.
Defined.

(** ** Every precaution answer carries the emergency tip *)

(** Whatever the key is, the tips of [get_precaution_text] number at
    least three and include the first generic tip, the one that sends
    the reader to emergency care, and the text starts with a list
    marker. *)
Theorem precaution_tips_always_warn (E : Env) (key : option string) :
  In (hd ""%string GENERIC_PRECAUTIONS) (precaution_tips E key) /\
  3 <= length (precaution_tips E key) /\
  startswith "- " (get_precaution_text E key) = true.
Proof.
  assert (Hmark : forall tips,
             1 <= length tips ->
             startswith "- "
               (join nl (map (fun t => ("- " ++ t)%string) tips)) = true).
  { intros [|t [|t' tips]] Hlen; [simpl in Hlen; lia | reflexivity |].
    reflexivity. }
  assert (Hsome : In (hd ""%string GENERIC_PRECAUTIONS) (precaution_tips E key)
                  /\ 3 <= length (precaution_tips E key)).
  { unfold precaution_tips. destruct key as [k|]; [| split; cbn; [tauto | lia]].
    destruct (truthy k && dict_in k PRECAUTION_MAP) eqn:Hc.
    - apply andb_true_iff in Hc as [_ Hc]. apply dict_in_get in Hc as [tips Ht].
      rewrite Ht. cbn [get_or]. split.
      + apply in_or_app. right. now left.
      + apply dict_get_in in Ht. rewrite length_app. cbn in Ht.
        repeat (destruct Ht as [Ht | Ht];
                [injection Ht as <- <-; simpl; lia |]).
        contradiction.
    - destruct (truthy k && dict_in k (MED_KB E)); [| split; cbn; [tauto | lia]].
      destruct (dict_get k (MED_KB E)); split; cbn; try tauto; lia. }
  split; [apply Hsome |]. split; [apply Hsome |].
  unfold get_precaution_text. apply Hmark. lia.
Qed.

(** ** Small talk *)

(** Every answer [match_smalltalk] can return is a non-empty text, so the
    truth test [if small] of the route loses no match. *)
Lemma match_smalltalk_nonempty (E : Env) (msg a : string) :
  match_smalltalk E msg = Some a -> truthy a = true.
Proof.
  unfold match_smalltalk.
  destruct (find _ QA_MAP) as [qa|] eqn:Hq.
  - intros [= <-]. destruct (find_some _ _ Hq) as [Hin _]. cbn in Hin.
    repeat (destruct Hin as [<- | Hin]; [reflexivity |]). contradiction.
  - destruct (find _ SMALLTALK_PATTERNS) as [pr|] eqn:Hp; [| discriminate].
    destruct (find_some _ _ Hp) as [Hin _]. cbn in Hin.
    repeat (destruct Hin as [<- | Hin];
            [cbn; intros [= <-]; reflexivity |]).
    contradiction.
Qed.

(** A message without an emergency phrase that [match_smalltalk] answers
    gets that answer from the small-talk stage, with no condition
    recorded, whatever the symptom-mode flag is and also when the message
    holds a precaution key word or names a condition. *)
Theorem smalltalk_stage (E : Env) (data : Payload) (session : Session)
    (raw a : string) :
  message data = Some raw ->
  truthy (strip raw) = true ->
  find (fun s => str_in s (lower raw)) EMERGENCY_SIGNS = None ->
  match_smalltalk E (strip raw) = Some a ->
  chat E data session =
  (Smalltalk,
   {| reply := a; disclaimer := DISCLAIMER;
      history :=
        Some (get_history session
              ++ [ {| user := strip raw; bot := a; condition := None |} ]);
      candidates := None; status := 200 |},
   Some (get_history session
         ++ [ {| user := strip raw; bot := a; condition := None |} ])).
Proof.
  intros Hraw Hne Hem Hsm.
  unfold chat. rewrite Hraw. cbn [get_or]. rewrite Hne. cbn [negb].
  unfold chat_body, check_emergency.
  rewrite find_emergency_strip, Hem, Hsm. cbn [truthy_opt].
  now rewrite (match_smalltalk_nonempty E _ _ Hsm).
Qed.

Lemma smalltalk_stage_witness :
  chat example_env
       {| message := Some " Thanks for the fever medicine "%string;
          symptom_mode := true |}
       None =
  (Smalltalk,
   {| reply := "You're welcome!"; disclaimer := DISCLAIMER;
      history :=
        Some (get_history None
              ++ [ {| user := strip " Thanks for the fever medicine ";
                      bot := "You're welcome!"; condition := None |} ]);
      candidates := None; status := 200 |},
   Some (get_history None
         ++ [ {| user := strip " Thanks for the fever medicine ";
                 bot := "You're welcome!"; condition := None |} ])).
Proof.
  apply (smalltalk_stage example_env
           {| message := Some " Thanks for the fever medicine "%string;
              symptom_mode := true |}
           None " Thanks for the fever medicine " "You're welcome!");
    reflexivity.
Defined.

(** ** When [get_medicine_text] raises *)

Lemma mapM_medicine_line (meds : list MedicineEntry) :
  (forall m, In m meds -> name m <> None) /\
  (exists lines, mapM medicine_line meds = Ok lines)
  \/
  (exists m, In m meds /\ name m = None) /\
  mapM medicine_line meds = Raise (KeyError "name").
Proof.
  induction meds as [|m meds IH].
  - left. split; [intros m [] | now exists []].
  - cbn [mapM]. unfold medicine_line at 1 3.
    destruct (name m) as [n|] eqn:Hn; cbn [bind].
    + destruct IH as [[Hall [lines ->]] | [(m' & Hin & Hm') ->]].
      * left. split; [| now eexists].
        intros m' [<- | Hin]; [congruence | now apply Hall].
      * right. split; [| reflexivity]. exists m'. split; [now right | assumption].
    + right. split; [| reflexivity]. exists m. split; [now left | assumption].
Qed.

(** [get_medicine_text] raises exactly when the key is in the catalogue
    and one of its entries has no name; the exception is then the
    [KeyError] for ['name']. A missing use or warning never raises. *)
Theorem get_medicine_text_raises (E : Env) (key : string) :
  ((exists e, get_medicine_text E key = Raise e) <->
   (exists meds m,
       dict_get key (MEDICINES E) = Some meds /\ In m meds /\ name m = None))
  /\
  (forall e, get_medicine_text E key = Raise e -> e = KeyError "name").
Proof.
  unfold get_medicine_text.
  destruct (dict_get key (MEDICINES E)) as [meds|].
  - destruct (mapM_medicine_line meds)
      as [[Hall [lines ->]] | [(m & Hin & Hm) ->]]; cbn [bind].
    + split; [split |].
      * intros [e He]. discriminate.
      * intros (meds' & m & [= <-] & Hin & Hm). now destruct (Hall m Hin).
      * intros e He. discriminate.
    + split; [split |].
      * intros _. now exists meds, m.
      * intros _. now eexists.
      * now intros e [= <-].
  - split; [split |].
    + intros [e He]. discriminate.
    + intros (meds & m & Hd & _). discriminate.
    + intros e He. discriminate.
Qed.

Example get_medicine_text_raises_example :
  get_medicine_text
    {| MED_KB := []; MEDICINES :=
         [("flu"%string,
           [ {| name := Some "Rest"%string; use := None; warning := None |};
             {| name := None; use := Some "x"%string; warning := None |} ])];
       set_iter := first_seen; re_search := example_search;
       re_split := example_split; round3 := example_round;
       float_str := example_float_str |} "flu"
  = Raise (KeyError "name").
Proof. reflexivity. Qed.

(** ** Keys are compared as they are, the text in lowercase *)

Lemma is_upper_lower (c : ascii) : is_upper (lower_ascii c) = false.
Proof. destruct c as [[] [] [] [] [] [] [] []]; reflexivity. Qed.

Lemma has_upper_lower (s : string) : has_upper (lower s) = false.
Proof.
  induction s as [|c s IH]; [reflexivity |]. cbn [lower has_upper].
  now rewrite is_upper_lower, IH.
Qed.

Lemma startswith_has_upper (p s : string) :
  startswith p s = true -> has_upper p = true -> has_upper s = true.
Proof.
  revert s. induction p as [|a p IH]; intros [|b s]; simpl; try discriminate.
  intros H Hp. apply andb_true_iff in H as [Hab Hs].
  apply Ascii.eqb_eq in Hab. subst b.
  apply orb_true_iff in Hp as [Ha | Hp].
  - now rewrite Ha.
  - rewrite (IH s Hs Hp). apply orb_true_r.
Qed.

Lemma str_in_has_upper (p s : string) :
  str_in p s = true -> has_upper p = true -> has_upper s = true.
Proof.
  induction s as [|c s IH]; intros H Hp.
  - simpl in H. rewrite orb_false_r in H.
    exact (startswith_has_upper _ _ H Hp).
  - change (startswith p (String c s) || str_in p s = true) in H.
    apply orb_true_iff in H as [H | H].
    + exact (startswith_has_upper _ _ H Hp).
    + cbn [has_upper]. rewrite (IH H Hp). apply orb_true_r.
Qed.

(** A key of the knowledge base that holds an uppercase ASCII letter is
    never found by the key loop of [find_condition_simple] nor by the
    text scan of [last_matched_condition_from_history]: both look for the
    key as it is in a text that was lowercased. *)
Theorem uppercase_key_never_direct (E : Env) (key : string) :
  has_upper key = true ->
  (forall t, str_in key (lower t) = false) /\
  (forall msg, direct_key E (lower msg) <> Some key) /\
  (forall bot_text, key_in_text E (lower bot_text) <> Some key).
Proof.
  intros Hup.
  assert (Hno : forall t, str_in key (lower t) = false).
  { intros t. destruct (str_in key (lower t)) eqn:H; [| reflexivity].
    pose proof (str_in_has_upper _ _ H Hup) as Hl.
    rewrite has_upper_lower in Hl. discriminate. }
  split; [exact Hno |]. split.
  - intros msg H. unfold direct_key in H.
    destruct (find_some _ _ H) as [_ Hs]. rewrite Hno in Hs. discriminate.
  - intros t H. unfold key_in_text in H.
    destruct (find_some _ _ H) as [_ Hs]. rewrite Hno in Hs. discriminate.
Qed.

Lemma uppercase_key_never_direct_witness :
  (forall t, str_in "Flu" (lower t) = false) /\
  (forall msg, direct_key example_env (lower msg) <> Some "Flu"%string) /\
  (forall bot_text,
      key_in_text example_env (lower bot_text) <> Some "Flu"%string).
Proof.
  apply (uppercase_key_never_direct example_env "Flu"). reflexivity.
Defined.

(** ** The shape of an answer *)

Lemma fold_left_truthy {A : Type} (f : A -> string) (l : list A)
    (init : string) :
  truthy init = true ->
  truthy (fold_left (fun text c => (text ++ f c)%string) l init) = true.
Proof.
  revert init. induction l as [|x l IH]; intros init H; [assumption |].
  cbn [fold_left]. apply IH. now apply truthy_append.
Qed.

Lemma truthy_get_or (o : option string) :
  truthy_opt o = true -> truthy (get_or o "") = true.
Proof. destruct o as [[|c s]|]; simpl; congruence. Qed.

(** Closes a branch of [chat] for [chat_answer_shape]. *)
Ltac shape_leaf :=
  cbn; repeat split; intros; try discriminate; try reflexivity;
  try tauto; try congruence;
  try (match goal with H : _ \/ _ |- _ => destruct H; discriminate end).

Lemma chat_shape (E : Env) (data : Payload) (session : Session) :
  disclaimer (snd (fst (chat E data session))) = DISCLAIMER /\
  truthy (reply (snd (fst (chat E data session)))) = true /\
  (status (snd (fst (chat E data session))) = 200 \/
   status (snd (fst (chat E data session))) = 500) /\
  (status (snd (fst (chat E data session))) = 500 <->
   fst (fst (chat E data session)) = ServerError) /\
  (fst (fst (chat E data session)) = ServerError ->
   snd (chat E data session) = session /\
   reply (snd (fst (chat E data session))) = "Server error occurred."%string) /\
  (candidates (snd (fst (chat E data session))) <> None <->
   fst (fst (chat E data session)) = SymptomMode) /\
  (history (snd (fst (chat E data session))) = None <->
   fst (fst (chat E data session)) = EmptyInput \/
   fst (fst (chat E data session)) = ServerError).
Proof.
  unfold chat.
  destruct (negb (truthy (strip (get_or (message data) ""))));
    [shape_leaf |].
  unfold chat_body.
  destruct (check_emergency _) as [[] sign]; [shape_leaf |].
  destruct (truthy_opt (match_smalltalk E _)) eqn:Hsm.
  { apply truthy_get_or in Hsm. cbn. rewrite Hsm. shape_leaf. }
  destruct (existsb _ INTENT_KEYWORDS).
  - destruct (truthy_opt (fst (find_condition_simple E _))).
    + destruct (get_medicine_text E _); cbn [bind]; [| shape_leaf].
      destruct (kb_title E _); cbn [bind]; shape_leaf.
    + destruct (truthy_opt (last_matched_condition_from_history E session)).
      * destruct (get_medicine_text E _); cbn [bind]; [| shape_leaf].
        destruct (kb_title E _); cbn [bind]; shape_leaf.
      * shape_leaf.
  - destruct (symptom_mode data).
    + destruct (mapM _ _) as [cands|]; cbn [bind]; [| shape_leaf].
      cbn [answer fst snd reply disclaimer status candidates history].
      rewrite (fold_left_truthy
                 (fun c => ("- " ++ cand_title c ++ " (score: "
                            ++ float_str E (cand_score c) ++ ")" ++ nl)%string))
        by reflexivity.
      repeat split; intros; try discriminate; try tauto.
      destruct H; discriminate.
    + destruct (find_condition_simple E _) as [cond score].
      destruct (truthy_opt cond); [| shape_leaf].
      destruct (dict_get _ _); [| shape_leaf].
      destruct (get_medicine_text E _) as [med|]; cbn [bind]; [| shape_leaf].
      destruct (kb_title E _); cbn [bind]; [| shape_leaf].
      destruct (truthy_opt med); shape_leaf.
Qed.

(** Every answer carries the disclaimer and a non-empty reply. The status
    is 500 exactly for the server-error answer, which leaves the session
    as it was, and 200 otherwise; candidates come exactly with the answer
    of the symptom stage; the history is left out of the answer exactly
    for empty input and for the server error. *)
Theorem chat_answer_shape (E : Env) (data : Payload) (session : Session) :
  disclaimer (snd (fst (chat E data session))) = DISCLAIMER /\
  truthy (reply (snd (fst (chat E data session)))) = true /\
  (status (snd (fst (chat E data session))) = 200 \/
   status (snd (fst (chat E data session))) = 500) /\
  (status (snd (fst (chat E data session))) = 500 <->
   fst (fst (chat E data session)) = ServerError) /\
  (fst (fst (chat E data session)) = ServerError ->
   snd (chat E data session) = session /\
   reply (snd (fst (chat E data session))) = "Server error occurred."%string) /\
  (candidates (snd (fst (chat E data session))) <> None <->
   fst (fst (chat E data session)) = SymptomMode) /\
  (history (snd (fst (chat E data session))) = None <->
   fst (fst (chat E data session)) = EmptyInput \/
   fst (fst (chat E data session)) = ServerError).
Proof. exact (chat_shape E data session). Qed.

(** ** The texts of a stored turn *)

Lemma lstrip_first (s : string) :
  truthy (lstrip s) = true -> first_nonspace (lstrip s) = true.
Proof.
  induction s as [|c s IH]; [discriminate |]. cbn [lstrip].
  destruct (is_space c) eqn:Hc; [exact IH |].
  intros _. cbn [first_nonspace]. now rewrite Hc.
Qed.

Lemma rstrip_first (s : string) :
  first_nonspace s = true -> first_nonspace (rstrip s) = true.
Proof.
  destruct s as [|c s]; [discriminate |]. cbn [first_nonspace rstrip].
  intros Hc. destruct (rstrip s); [| assumption].
  apply negb_true_iff in Hc. rewrite Hc. cbn [first_nonspace]. now rewrite Hc.
Qed.

Lemma rstrip_last (s : string) :
  truthy (rstrip s) = true -> last_nonspace (rstrip s) = true.
Proof.
  induction s as [|c s IH]; [discriminate |]. cbn [rstrip].
  destruct (rstrip s) as [|d r].
  - destruct (is_space c) eqn:Hc; [discriminate |].
    intros _. cbn [last_nonspace]. now rewrite Hc.
  - intros _. change (last_nonspace (String c (String d r)))
      with (last_nonspace (String d r)). now apply IH.
Qed.

(** [strip] leaves the empty string or a text with no white space at
    either end. *)
Lemma strip_edges (s : string) :
  truthy (strip s) = true ->
  first_nonspace (strip s) = true /\ last_nonspace (strip s) = true.
Proof.
  unfold strip. intros H. split; [| now apply rstrip_last].
  apply rstrip_first, lstrip_first.
  destruct (lstrip s); [discriminate | reflexivity].
Qed.

(** A turn that a request appends holds a user text that is not empty and
    has no white space at either end, and a bot text that is not
    empty. *)
Theorem stored_turn_texts (E : Env) (data : Payload) (session : Session)
    (turn : DialogTurn) :
  get_history (snd (chat E data session)) = get_history session ++ [turn] ->
  truthy (user turn) = true /\
  first_nonspace (user turn) = true /\
  last_nonspace (user turn) = true /\
  truthy (bot turn) = true.
Proof.
  intros Hh.
  assert (Hlen : forall l : list DialogTurn, l <> l ++ [turn]).
  { intros l H. apply (f_equal (@length DialogTurn)) in H.
    rewrite length_app in H. simpl in H. lia. }
  destruct (truthy (strip (get_or (message data) ""))) eqn:Hne.
  - destruct (chat_outcome E data session)
      as [(Hs & _) | (cond & Hs & _)].
    + rewrite Hs in Hh. now destruct (Hlen _ Hh).
    + rewrite Hs in Hh. unfold add_to_history in Hh.
      cbn [get_history get_or] in Hh. apply app_inv_head in Hh.
      injection Hh as <-. cbn [user bot].
      destruct (strip_edges _ Hne) as [Hf Hl].
      repeat split; try assumption.
      apply (chat_shape E data session).
  - unfold chat in Hh. rewrite Hne in Hh. cbn [negb snd] in Hh.
    now destruct (Hlen _ Hh).
Qed.

Lemma stored_turn_texts_witness :
  truthy (strip "  I keep sneezing ") = true /\
  first_nonspace (strip "  I keep sneezing ") = true /\
  last_nonspace (strip "  I keep sneezing ") = true /\
  truthy (reply (snd (fst (chat example_env
            {| message := Some "  I keep sneezing "%string;
               symptom_mode := false |} None)))) = true.
Proof.
  apply (stored_turn_texts example_env
           {| message := Some "  I keep sneezing "%string;
              symptom_mode := false |}
           None
           {| user := strip "  I keep sneezing ";
              bot := reply (snd (fst (chat example_env
                       {| message := Some "  I keep sneezing "%string;
                          symptom_mode := false |} None)));
              condition := Some "common_cold"%string |}).
  vm_compute. reflexivity.
Defined.

(** ** A follow-up after a recorded condition *)

(** Two requests in a row: when the first appends a turn that stores the
    condition [key], and the second holds a precaution or medicine key
    word, names no condition and is neither an emergency nor small talk,
    the second is answered for [key] by the previous-condition branch and
    stores [key] again. *)
Theorem follow_up_uses_recorded_condition (E : Env) (d1 d2 : Payload)
    (session : Session) (turn : DialogTurn) (key raw t : string)
    (med : option string) :
  get_history (snd (chat E d1 session)) = get_history session ++ [turn] ->
  condition turn = Some key ->
  message d2 = Some raw ->
  truthy (strip raw) = true ->
  check_emergency (strip raw) = (false, None) ->
  truthy_opt (match_smalltalk E (strip raw)) = false ->
  existsb (fun kw => str_in kw (lower (strip raw))) INTENT_KEYWORDS = true ->
  truthy_opt (fst (find_condition_simple E (strip raw))) = false ->
  get_medicine_text E key = Ok med ->
  kb_title E key = Ok t ->
  exists text,
    text =
    ("Based on your previous condition (**" ++ t
     ++ "**), here are precautions and non-prescription suggestions:"
     ++ nl ++ get_precaution_text E (Some key) ++ nl ++ nl
     ++ "Non-prescription suggestions:" ++ nl ++ str_or med NO_MEDICINE
     ++ nl ++ nl ++ DISCLAIMER)%string /\
    fst (chat E d2 (snd (chat E d1 session))) =
    (PrecautionPrevious,
     {| reply := text; disclaimer := DISCLAIMER;
        history :=
          Some (get_history session
                ++ [turn; {| user := strip raw; bot := text;
                             condition := Some key |}]);
        candidates := None; status := 200 |}).
Proof.
  intros Hh Hk Hraw Hne Hem Hsm Hint Hm Hmed Ht.
  pose proof (resolve_after_record E d1 session turn key Hh Hk) as Hlast.
  assert (Hkey : truthy key = true).
  { destruct (chat_outcome E d1 session)
      as [(Hs & _) | (cond & Hs & _ & _ & Hcond)].
    - rewrite Hs in Hh. apply (f_equal (@length DialogTurn)) in Hh.
      rewrite length_app in Hh. simpl in Hh. lia.
    - rewrite Hs in Hh. unfold add_to_history in Hh.
      cbn [get_history get_or] in Hh. apply app_inv_head in Hh.
      injection Hh as <-. cbn [condition] in Hk. subst cond.
      now destruct Hcond as [Hc | Hc]. }
  eexists. split; [reflexivity |].
  unfold chat at 1. rewrite Hraw. cbn [get_or]. rewrite Hne. cbn [negb].
  unfold chat_body. rewrite Hem, Hsm, Hint, Hm, Hlast.
  cbn [truthy_opt get_or]. rewrite Hkey, Hmed, Ht. cbn [bind answer fst].
  unfold add_to_history. cbn [get_history get_or]. rewrite Hh.
  now rewrite <- app_assoc.
Qed.

Lemma follow_up_uses_recorded_condition_witness :
  exists text,
    text =
    ("Based on your previous condition (**" ++ "Common Cold"
     ++ "**), here are precautions and non-prescription suggestions:"
     ++ nl ++ get_precaution_text example_env (Some "common_cold"%string)
     ++ nl ++ nl
     ++ "Non-prescription suggestions:" ++ nl ++ str_or None NO_MEDICINE
     ++ nl ++ nl ++ DISCLAIMER)%string /\
    fst (chat example_env
           {| message := Some "what medicine"%string; symptom_mode := false |}
           (snd (chat example_env
                   {| message := Some "I keep sneezing"%string;
                      symptom_mode := false |} None))) =
    (PrecautionPrevious,
     {| reply := text; disclaimer := DISCLAIMER;
        history :=
          Some (get_history None
                ++ [ {| user := "I keep sneezing";
                        bot := reply (snd (fst (chat example_env
                                 {| message := Some "I keep sneezing"%string;
                                    symptom_mode := false |} None)));
                        condition := Some "common_cold"%string |};
                     {| user := strip "what medicine"; bot := text;
                        condition := Some "common_cold"%string |}]);
        candidates := None; status := 200 |}).
Proof.
  apply (follow_up_uses_recorded_condition example_env
           {| message := Some "I keep sneezing"%string;
              symptom_mode := false |}
           {| message := Some "what medicine"%string; symptom_mode := false |}
           None
           {| user := "I keep sneezing";
              bot := reply (snd (fst (chat example_env
                       {| message := Some "I keep sneezing"%string;
                          symptom_mode := false |} None)));
              condition := Some "common_cold"%string |}
           "common_cold" "what medicine" "Common Cold" None);
    vm_compute; reflexivity.
Defined.

(** ** An empty knowledge base *)

(** With no condition in the knowledge base the matcher finds nothing for
    any message, the symptom checker returns no candidate, and no request
    is answered by the condition stages. *)
Theorem empty_knowledge_base (E : Env) (data : Payload) (session : Session) :
  MED_KB E = [] ->
  (forall msg, find_condition_simple E msg = (None, 0%Q)) /\
  (forall symptoms_list top_n, symptom_checker E symptoms_list top_n = []) /\
  fst (fst (chat E data session)) <> ConditionDetail /\
  fst (fst (chat E data session)) <> PrecautionNamed.
Proof.
  intros Hkb.
  assert (Hm : forall msg, find_condition_simple E msg = (None, 0%Q)).
  { intros msg. unfold find_condition_simple, direct_key, keyword_match,
      fuzzy_fallback, fuzzy_scores, INDEX. now rewrite Hkb. }
  split; [exact Hm |]. split.
  { intros l n. unfold symptom_checker, symptom_scores, INDEX. rewrite Hkb.
    cbn. now destruct n. }
  unfold chat.
  destruct (negb (truthy (strip (get_or (message data) ""))));
    [split; discriminate |].
  unfold chat_body. rewrite Hm. cbn [fst truthy_opt].
  destruct (check_emergency _) as [[] sign]; [split; discriminate |].
  destruct (truthy_opt (match_smalltalk E _)); [split; discriminate |].
  destruct (existsb _ INTENT_KEYWORDS).
  - destruct (truthy_opt (last_matched_condition_from_history E session));
      [| split; discriminate].
    destruct (get_medicine_text E _); cbn [bind]; [| split; discriminate].
    destruct (kb_title E _); cbn [bind]; split; discriminate.
  - destruct (symptom_mode data); [| split; discriminate].
    destruct (mapM _ _); cbn [bind]; split; discriminate.
Qed.

Lemma empty_knowledge_base_witness :
  (forall msg,
      find_condition_simple
        {| MED_KB := []; MEDICINES := example_medicines;
           set_iter := first_seen; re_search := example_search;
           re_split := example_split; round3 := example_round;
           float_str := example_float_str |} msg = (None, 0%Q)) /\
  (forall symptoms_list top_n,
      symptom_checker
        {| MED_KB := []; MEDICINES := example_medicines;
           set_iter := first_seen; re_search := example_search;
           re_split := example_split; round3 := example_round;
           float_str := example_float_str |} symptoms_list top_n = []) /\
  fst (fst (chat
        {| MED_KB := []; MEDICINES := example_medicines;
           set_iter := first_seen; re_search := example_search;
           re_split := example_split; round3 := example_round;
           float_str := example_float_str |}
        {| message := Some "I have a fever"%string; symptom_mode := false |}
        None)) <> ConditionDetail /\
  fst (fst (chat
        {| MED_KB := []; MEDICINES := example_medicines;
           set_iter := first_seen; re_search := example_search;
           re_split := example_split; round3 := example_round;
           float_str := example_float_str |}
        {| message := Some "I have a fever"%string; symptom_mode := false |}
        None)) <> PrecautionNamed.
Proof.
  apply (empty_knowledge_base
           {| MED_KB := []; MEDICINES := example_medicines;
              set_iter := first_seen; re_search := example_search;
              re_split := example_split; round3 := example_round;
              float_str := example_float_str |}
           {| message := Some "I have a fever"%string; symptom_mode := false |}
           None).
  reflexivity.
Defined.
